(** * zeroinstall.injector.policy: a shallow embedding of [Policy]

    The [Policy] class of [src/zeroinstall/injector/policy.py] chooses a set
    of implementations and drives the feed downloads needed to complete the
    choice.  This development embeds its methods as Rocq functions and
    proves the properties the design document states about them.

    Conventions.
    - Timestamps ([time.time()], [last_checked], ...) are integers, in
      seconds since the epoch.
    - A Python dictionary is a [gmap], a Python set a [gset]; interfaces
      are interned by the cache, so an interface used as a key or a set
      member is represented by its URI.
    - Collaborators that live outside [policy.py] (the solver, the fetcher,
      the interface cache, the stores, the clock, the file system) are
      either function parameters or answers supplied by the caller of the
      model.
    - Effects (logging, solver runs, watcher callbacks, downloads,
      suspension of the task) are recorded as a list of [event]s. *)

From Stdlib Require Import ZArith String List Bool Lia.
From stdpp Require Import base option list gmap sets strings.

Local Open Scope string_scope.
Local Open Scope list_scope.
Local Open Scope Z_scope.

(** ** Python idioms *)

(** [s.startswith(p)]. *)
Definition startswith (s p : string) : bool := String.prefix p s.

(** Truth value of an optional number: [None] and [0] are false. *)
Definition truthy_num (t : option Z) : bool :=
  match t with
  | Some v => negb (v =? 0)
  | None => false
  end.

(** Truth value of an optional string: [None] and [''] are false. *)
Definition truthy_str (s : option string) : bool :=
  match s with
  | Some v => negb (String.eqb v "")
  | None => false
  end.

(** [t or 0] for an optional number. *)
Definition or_zero (t : option Z) : Z :=
  match t with
  | Some v => v
  | None => 0
  end.

(** ** Constants of the sibling modules [model] and [namespaces] *)

(** Modelled from the spec: the three network-use levels of the absent
    [model] module ("one of full, minimal, offline"), with the spellings
    0install stores in its configuration file. *)
Definition network_offline : string := "off-line".
Definition network_minimal : string := "minimal".
Definition network_full : string := "full".
Definition network_levels : list string :=
  [network_offline; network_minimal; network_full].

(** Modelled from the spec: the "designated always-offline-first-run
    bootstrap feed" of the absent [namespaces] module. *)
Definition injector_gui_uri : string :=
  "http://0install.net/2007/interfaces/injector-gui.xml".

(** If we started a check within this period, don't start another one. *)
Definition FAILED_CHECK_DELAY : Z := 60 * 60.

(** ** Data model *)

(** A cached feed, as [iface_cache.get_feed] returns it. *)
Record ZeroInstallFeed := {
  url : string;
  last_modified : option Z;
  last_checked : option Z
}.

(** A feed reference in an interface's [feeds] list; [None] is the Python
    [None] tag. *)
Record Feed := {
  feed_uri : string;
  os : option string;
  machine : option string
}.

(** [isinstance(impl, DistributionImplementation)] is the constructor test. *)
Inductive Implementation :=
| ZeroInstallImplementation (id : string)
| DistributionImplementation (id : string) (installed : bool).

Definition impl_id (impl : Implementation) : string :=
  match impl with
  | ZeroInstallImplementation id => id
  | DistributionImplementation id _ => id
  end.

Record Interface := {
  uri : string;
  name : option string;
  feeds : list Feed;
  implementations : gmap string Implementation
}.

(** [arch.get_host_architecture()], possibly wrapped by
    [arch.SourceArchitecture]. *)
Inductive architecture :=
| HostArchitecture
| SourceArchitecture (binary : architecture).

(** The solver object the policy owns.  [selections] maps an interface
    (its URI) to the chosen implementation or to [None]. *)
Record Solver := {
  help_with_testing : bool;
  network_use : string;
  selections : gmap string (option Implementation);
  feeds_used : list string;
  ready : bool
}.

(** A watcher is a zero-argument callback; it is identified by a number and
    calling it is recorded as an event. *)
Definition watcher := nat.

(** A download handle ([tasks.Blocker]); the fetcher hands out fresh ones. *)
Definition handle := nat.

(** The [__slots__] of [Policy] the methods below read or write.  Two slots
    are left out: [handler], which no method below reads, and [_fetcher],
    which the [fetcher] property (lines 108-113) fills with a [Fetcher] the
    first time a method reaches the fetcher and never changes afterwards.
    A statement that a method leaves fields of [Policy] alone is about the
    fields of this record only. *)
Record Policy := {
  root : string;
  watchers : list watcher;
  freshness : Z;
  src : bool;
  stale_feeds : gset string;
  solver : Solver;
  _warned_offline : bool
}.

Definition set_root_field (v : string) (p : Policy) : Policy :=
  {| root := v; watchers := watchers p; freshness := freshness p; src := src p;
     stale_feeds := stale_feeds p; solver := solver p;
     _warned_offline := _warned_offline p |}.

Definition set_freshness (v : Z) (p : Policy) : Policy :=
  {| root := root p; watchers := watchers p; freshness := v; src := src p;
     stale_feeds := stale_feeds p; solver := solver p;
     _warned_offline := _warned_offline p |}.

Definition set_stale_feeds (v : gset string) (p : Policy) : Policy :=
  {| root := root p; watchers := watchers p; freshness := freshness p;
     src := src p; stale_feeds := v; solver := solver p;
     _warned_offline := _warned_offline p |}.

Definition set_solver (v : Solver) (p : Policy) : Policy :=
  {| root := root p; watchers := watchers p; freshness := freshness p;
     src := src p; stale_feeds := stale_feeds p; solver := v;
     _warned_offline := _warned_offline p |}.

Definition set_warned_offline (v : bool) (p : Policy) : Policy :=
  {| root := root p; watchers := watchers p; freshness := freshness p;
     src := src p; stale_feeds := stale_feeds p; solver := solver p;
     _warned_offline := v |}.

(** The property setters [help_with_testing] and [network_use] forward to
    the solver. *)
Definition set_help_with_testing (v : bool) (p : Policy) : Policy :=
  set_solver {| help_with_testing := v; network_use := network_use (solver p);
                selections := selections (solver p);
                feeds_used := feeds_used (solver p);
                ready := ready (solver p) |} p.

Definition set_network_use (v : string) (p : Policy) : Policy :=
  set_solver {| help_with_testing := help_with_testing (solver p);
                network_use := v;
                selections := selections (solver p);
                feeds_used := feeds_used (solver p);
                ready := ready (solver p) |} p.

(** [self.network_use == network_offline] *)
Definition offline (p : Policy) : bool :=
  String.eqb (network_use (solver p)) network_offline.

(** ** Exceptions *)

Inductive exn :=
| SafeException (msg : string)
| KeyError (key : string)
| AssertionError
| NotStored (msg : string)
| LibraryError (msg : string).

(** [str(ex)] *)
Definition exn_str (ex : exn) : string :=
  match ex with
  | SafeException msg => msg
  | KeyError key => key
  | AssertionError => ""
  | NotStored msg => msg
  | LibraryError msg => msg
  end.

(** The outcome of a call that may raise. *)
Inductive result (A : Type) :=
| Return (a : A)
| Raise (ex : exn).
Arguments Return {A} a.
Arguments Raise {A} ex.

#[global] Instance result_ret : MRet result := fun A a => Return a.
#[global] Instance result_bind : MBind result := fun A B f m =>
  match m with
  | Return a => f a
  | Raise ex => Raise ex
  end.

(** [try: body / except: handler] *)
Definition try_except {A} (body : result A) (handler : exn -> result A)
  : result A :=
  match body with
  | Return a => Return a
  | Raise ex => handler ex
  end.

(** [assert c] *)
Definition assert (c : bool) : result unit :=
  if c then Return tt else Raise AssertionError.

(** [d[k]] *)
Definition getitem {V} (d : gmap string V) (k : string) : result V :=
  match d !! k with
  | Some v => Return v
  | None => Raise (KeyError k)
  end.

(** [k in d] *)
Definition contains {K V} `{Countable K} (d : gmap K V) (k : K) : bool :=
  match d !! k with
  | Some _ => true
  | None => false
  end.

(** ** Effects *)

Inductive level := DEBUG | INFO | WARN.

(** What a method does to the world around it.  A log record keeps the
    format string and its arguments apart, as [logging] receives them. *)
Inductive event :=
| Log (lvl : level) (fmt : string) (args : list string)
| Solve (root_uri : string) (host_arch : architecture)
| Notify (w : watcher)
| Download (feed_url : string) (h : handle)
| Yield (blockers : list handle).

(** The state a method threads: the policy object and the next handle the
    fetcher will hand out. *)
Record world := {
  policy : Policy;
  next_handle : handle
}.

(** A method body: it reads and writes the world and emits events. *)
Definition M (A : Type) : Type := world -> A * world * list event.

#[global] Instance M_ret : MRet M := fun A a w => (a, w, []).
#[global] Instance M_bind : MBind M := fun A B f m w =>
  let '(a, w1, es1) := m w in
  let '(b, w2, es2) := f a w1 in
  (b, w2, es1 ++ es2).

Definition emit (e : event) : M unit := fun w => (tt, w, [e]).
Definition get_policy : M Policy := fun w => (policy w, w, []).
Definition modify_policy (f : Policy -> Policy) : M unit := fun w =>
  (tt, {| policy := f (policy w); next_handle := next_handle w |}, []).

(** [for x in xs: body(x)] *)
Fixpoint for_each {A} (xs : list A) (body : A -> M unit) : M unit :=
  match xs with
  | [] => mret tt
  | x :: xs' => body x ≫= fun _ => for_each xs' body
  end.

(** The events of one kind in a trace. *)
Definition launched (es : list event) : list string :=
  omap (fun e => match e with Download f _ => Some f | _ => None end) es.
Definition solves (es : list event) : list (string * architecture) :=
  omap (fun e => match e with Solve r a => Some (r, a) | _ => None end) es.
Definition notified (es : list event) : list watcher :=
  omap (fun e => match e with Notify w => Some w | _ => None end) es.
Definition yields (es : list event) : list (list handle) :=
  omap (fun e => match e with Yield bs => Some bs | _ => None end) es.
Definition levels (es : list event) : list level :=
  omap (fun e => match e with Log l _ _ => Some l | _ => None end) es.

(** ** External collaborators *)

(** What one run of the solver computes.  [solver.solve] replaces the
    previous selections, feeds-used set and readiness flag. *)
Record solver_answer := {
  answer_selections : gmap string (option Implementation);
  answer_feeds_used : list string;
  answer_ready : bool
}.

Definition solved (a : solver_answer) (s : Solver) : Solver :=
  {| help_with_testing := help_with_testing s;
     network_use := network_use s;
     selections := answer_selections a;
     feeds_used := answer_feeds_used a;
     ready := answer_ready a |}.

(** [self.solver.solve(self.root, host_arch)] *)
Definition solver_solve (a : solver_answer) (root_uri : string)
    (host_arch : architecture) : M unit :=
  emit (Solve root_uri host_arch) ≫= fun _ =>
  modify_policy (fun p => set_solver (solved a (solver p)) p).

(** Modelled from the spec: [Fetcher.download_and_import_feed] of the absent
    [fetch] module, reached as
    [self.fetcher.download_and_import_feed(feed_url, iface_cache)].  The
    contract is "[download_feed(url)] gives an async handle resolving on
    completion": the download starts and a handle comes back.  Handles are
    numbered in the order of the calls only to name them in the trace;
    the fetcher's contract says nothing of two handles being different. *)
Definition fetcher_download_and_import_feed (feed_url : string) : M handle :=
  fun w =>
    (next_handle w,
     {| policy := policy w; next_handle := S (next_handle w) |},
     [Download feed_url (next_handle w)]).

(** [for w in self.watchers: w()] *)
Definition notify_watchers : M unit :=
  p ← get_policy; for_each (watchers p) (fun w => emit (Notify w)).

(** The host architecture a solve is given. *)
Definition host_arch_of (p : Policy) : architecture :=
  if src p then SourceArchitecture HostArchitecture else HostArchitecture.

(** ** [Policy.__init__] and [Policy.set_root] *)

(** What [ConfigParser] and [int] answer on the file that
    [basedir.load_first_config] found: each call either returns or raises. *)
Record config_file := {
  config_read : result unit;
  config_getboolean_help_with_testing : result bool;
  config_get_network_use : result string;
  int_config_get_freshness : result Z
}.

(** Modelled from the spec: the constructor
    [DefaultSolver(network_use, iface_cache, iface_cache.stores)] of the
    absent [solver] module, a solver that has not run yet (no selection,
    not ready).  The properties below refer to its [help_with_testing] as
    the default, whatever its value. *)
Definition DefaultSolver (network : string) : Solver :=
  {| help_with_testing := false;
     network_use := network;
     selections := ∅;
     feeds_used := [];
     ready := false |}.

(** [set_root]: the assertion on the type of [root] holds for every string. *)
Definition set_root (new_root : string) : M unit :=
  modify_policy (set_root_field new_root) ≫= fun _ => notify_watchers.

(** The body of the [try] block of [__init__], statement by statement: a
    statement that raises leaves the assignments made before it in place. *)
Definition load_config (config : config_file) (p : Policy)
  : result unit * Policy :=
  match config_read config with
  | Raise ex => (Raise ex, p)
  | Return _ =>
      match config_getboolean_help_with_testing config with
      | Raise ex => (Raise ex, p)
      | Return b =>
          let p := set_help_with_testing b p in
          match config_get_network_use config with
          | Raise ex => (Raise ex, p)
          | Return n =>
              let p := set_network_use n p in
              match int_config_get_freshness config with
              | Raise ex => (Raise ex, p)
              | Return f =>
                  let p := set_freshness f p in
                  (assert (bool_decide (network_use (solver p) ∈ network_levels)), p)
              end
          end
      end
  end.

(** The exception that ends the [try] block, if any: that of the first
    statement that raises. *)
Definition first_failure (config : config_file) : option exn :=
  match config_read config with
  | Raise ex => Some ex
  | Return _ =>
      match config_getboolean_help_with_testing config with
      | Raise ex => Some ex
      | Return _ =>
          match config_get_network_use config with
          | Raise ex => Some ex
          | Return n =>
              match int_config_get_freshness config with
              | Raise ex => Some ex
              | Return _ =>
                  if bool_decide (n ∈ network_levels) then None
                  else Some AssertionError
              end
          end
      end
  end.

(** Whether the [try] block ends at its last statement, the assertion of
    line 102: every read returned and the [network_use] read is not one of
    [network_levels]. *)
Definition assertion_fails (config : config_file) : bool :=
  match config_read config,
        config_getboolean_help_with_testing config,
        config_get_network_use config,
        int_config_get_freshness config with
  | Return _, Return _, Return n, Return _ =>
      negb (bool_decide (n ∈ network_levels))
  | _, _, _, _ => false
  end.

(** [Policy(root, handler, src)].  [path] is the answer of
    [basedir.load_first_config], with the file's content when there is
    one.  The two [debug] lines about the rank tables are not recorded. *)
Definition __init__ (root_uri : string) (src_flag : bool)
    (path : option config_file) : Policy * list event :=
  (* the [root] slot is assigned by [set_root] below *)
  let p := {| root := "";
              watchers := [];
              freshness := 60 * 60 * 24 * 30;
              src := src_flag;
              stale_feeds := ∅;
              solver := DefaultSolver network_full;
              _warned_offline := false |} in
  let '(p, es) :=
    match path with
    | None => (p, [])
    | Some config =>
        match load_config config p with
        | (Return _, p) => (p, [])
        | (Raise ex, p) => (p, [Log WARN "Error loading config: %s" [exn_str ex]])
        end
    end in
  let '(_, w, es') := set_root root_uri {| policy := p; next_handle := 0%nat |} in
  (policy w, es ++ es').

(** ** Architecture ranking: [Policy.usable_feeds] *)

Section Architecture.
(** [arch.os_ranks] and [arch.machine_ranks] *)
Variable os_ranks : gmap (option string) nat.
Variable machine_ranks : gmap (option string) nat.

(** The loop of the generator: a feed that passes is yielded, another is
    skipped (with a [debug] line that is not recorded). *)
Fixpoint usable_feeds_loop (ranks : gmap (option string) nat)
    (fs : list Feed) : list Feed :=
  match fs with
  | [] => []
  | f :: fs' =>
      if contains os_ranks (os f) && contains ranks (machine f)
      then f :: usable_feeds_loop ranks fs'
      else usable_feeds_loop ranks fs'
  end.

Definition usable_feeds (p : Policy) (iface : Interface) : list Feed :=
  let ranks :=
    if src p && String.eqb (uri iface) (root p)
    then {[ Some "src" := 1%nat ]}
    else machine_ranks in
  usable_feeds_loop ranks (feeds iface).

(** A feed passes under the table [ranks] of machine tags. *)
Definition supported (ranks : gmap (option string) nat) (f : Feed) : Prop :=
  os f ∈ dom os_ranks /\ machine f ∈ dom ranks.

#[global] Instance supported_dec ranks f : Decision (supported ranks f).
Proof. unfold supported. apply _. Defined.

End Architecture.

(** ** Staleness policy: [Policy.is_stale] *)

Section Staleness.
(** [time.time()] *)
Variable now : Z.
(** [iface_cache.get_last_check_attempt] *)
Variable get_last_check_attempt : string -> option Z.

(** The two [debug] lines are not recorded. *)
Definition is_stale (p : Policy) (feed : option ZeroInstallFeed) : bool :=
  match feed with
  | None => true
  | Some feed =>
      if startswith (url feed) "/" then false
      else match last_modified feed with
           | None => true
           | Some _ =>
               let staleness := now - or_zero (last_checked feed) in
               if (freshness p =? 0) || (staleness <? freshness p) then false
               else
                 let last_check_attempt := get_last_check_attempt (url feed) in
                 if truthy_num last_check_attempt
                    && (now - FAILED_CHECK_DELAY <? or_zero last_check_attempt)
                 then false
                 else true
           end
  end.

(** The last rule in the terms of the source's own test: the cache reports
    a timestamp that Python takes as true and that lies after
    [now - FAILED_CHECK_DELAY]. *)
Definition recorded_recent_attempt (u : string) : Prop :=
  exists t, get_last_check_attempt u = Some t /\ t <> 0
            /\ now - FAILED_CHECK_DELAY < t.

(** "A check attempt occurred within the last hour": an attempt is recorded
    and it is less than [FAILED_CHECK_DELAY] seconds old. *)
Definition attempted_within_last_hour (u : string) : Prop :=
  exists t, get_last_check_attempt u = Some t
            /\ now - FAILED_CHECK_DELAY < t.

End Staleness.

(** ** Offline-mode gate: [Policy.download_and_import_feed_if_online] *)

Definition download_and_import_feed_if_online (feed_url : string)
  : M (option handle) :=
  p ← get_policy;
  if negb (offline p) then
    emit (Log DEBUG "Feed %s not cached and not off-line. Downloading..."
              [feed_url]);;
    h ← fetcher_download_and_import_feed feed_url;
    mret (Some h)
  else if _warned_offline p then
    emit (Log DEBUG "Not downloading feed '%s' because we are off-line."
              [feed_url]);;
    mret None
  else if String.eqb feed_url injector_gui_uri then
    emit (Log INFO
              "Not downloading GUI feed '%s' because we are in off-line mode."
              [feed_url]);;
    mret None
  else
    emit (Log WARN "Not downloading feed '%s' because we are in off-line mode."
              [feed_url]);;
    modify_policy (set_warned_offline true);;
    mret None.

(** A sequence of calls of the gate, one per URL, with what each returned. *)
Fixpoint attempts (urls : list string) : M (list (option handle)) :=
  match urls with
  | [] => mret []
  | u :: urls' =>
      r ← download_and_import_feed_if_online u;
      rs ← attempts urls';
      mret (r :: rs)
  end.

(** ** Cache presence check: [Policy.get_implementation_path] and
    [Policy.get_cached] *)

Section Presence.
(** [iface_cache.stores.lookup] *)
Variable stores_lookup : string -> result string.
(** [os.path.exists] *)
Variable path_exists : string -> bool.

(** The assertion on the type of [impl] holds for every [Implementation]. *)
Definition get_implementation_path (impl : Implementation) : result string :=
  if startswith (impl_id impl) "/" then Return (impl_id impl)
  else stores_lookup (impl_id impl).

Definition get_cached (impl : Implementation) : result bool :=
  match impl with
  | DistributionImplementation _ installed => Return installed
  | ZeroInstallImplementation id =>
      if startswith id "/" then Return (path_exists id)
      else
        try_except
          (path ← get_implementation_path impl;
           assert (negb (String.eqb path ""));;
           Return true)
          (fun _ => Return false)
  end.

(** The contract of the stores: a lookup that returns yields the path of a
    directory, never the empty string.  The [assert path] of [get_cached]
    relies on it. *)
Definition store_contract : Prop :=
  forall digest path, stores_lookup digest = Return path -> path <> "".

End Presence.

(** ** [Policy.get_implementation] *)

(** ['%s' % name] *)
Definition str_of_name (n : option string) : string :=
  match n with
  | Some s => s
  | None => "None"
  end.

Definition nl : string := String (Ascii.ascii_of_nat 10) EmptyString.

Definition metadata_missing_message (interface : Interface) : string :=
  "We don't have enough information to run this program yet. Need to download:"
  +:+ nl +:+ uri interface.

Definition offline_hint : string :=
  nl +:+ "This may be because 'Network Use' is set to Off-line.".

Definition no_usable_implementation_message (interface : Interface)
    (hint : string) : string :=
  "No usable implementation found for '" +:+ str_of_name (name interface)
  +:+ "'." +:+ hint.

(** The assertion on the type of [interface] holds for every [Interface]. *)
Definition get_implementation (p : Policy) (interface : Interface)
  : result (option Implementation) :=
  if negb (truthy_str (name interface))
     && negb (bool_decide (feeds interface ≠ []))
  then Raise (SafeException (metadata_missing_message interface))
  else
    try_except
      (getitem (selections (solver p)) (uri interface))
      (fun ex =>
         match ex with
         | KeyError _ =>
             if bool_decide (implementations interface ≠ ∅) then
               let hint := if offline p then offline_hint else "" in
               Raise (SafeException
                        (no_usable_implementation_message interface hint))
             else Raise ex
         | _ => Raise ex
         end).

(** ** Single-pass resolve: [Policy.recalculate] *)

Section Recalculate.
Variable now : Z.
(** [iface_cache.get_feed] and [iface_cache.get_last_check_attempt] *)
Variable get_feed : string -> option ZeroInstallFeed.
Variable get_last_check_attempt : string -> option Z.
(** What the solver computes when [recalculate] runs it. *)
Variable answer : solver_answer.

(** [feed is None or feed.last_modified is None] *)
Definition never_fetched (feed : option ZeroInstallFeed) : bool :=
  match feed with
  | None => true
  | Some feed =>
      match last_modified feed with
      | None => true
      | Some _ => false
      end
  end.

(** The body of the loop over [self.solver.feeds_used]. *)
Definition recalculate_feed (fetch_stale_interfaces : bool) (f : string)
  : M unit :=
  if startswith f "/" then mret tt
  else
    let feed := get_feed f in
    if never_fetched feed then
      download_and_import_feed_if_online f;; mret tt
    else
      p ← get_policy;
      if is_stale now get_last_check_attempt p feed then
        emit (Log DEBUG "Adding %s to stale set" [f]);;
        modify_policy (fun p => set_stale_feeds ({[ f ]} ∪ stale_feeds p) p);;
        if fetch_stale_interfaces then
          download_and_import_feed_if_online f;; mret tt
        else mret tt
      else mret tt.

Definition recalculate (fetch_stale_interfaces : bool) : M (list handle) :=
  modify_policy (set_stale_feeds ∅);;
  p ← get_policy;
  solver_solve answer (root p) (host_arch_of p);;
  p ← get_policy;
  let fetch_stale_interfaces :=
    if offline p then false else fetch_stale_interfaces in
  let blockers : list handle := [] in
  for_each (feeds_used (solver p)) (recalculate_feed fetch_stale_interfaces);;
  notify_watchers;;
  mret blockers.

(** A used feed that ends up in the stale set: it is remote, it has been
    fetched before, and [is_stale] holds of it. *)
Definition judged_stale (p : Policy) (f : string) : bool :=
  negb (startswith f "/")
  && negb (never_fetched (get_feed f))
  && is_stale now get_last_check_attempt p (get_feed f).

(** A used feed for which the offline-mode gate is called: it is remote and
    either has never been fetched or is stale while stale feeds are to be
    fetched. *)
Definition wants_download (fetch_stale_interfaces : bool) (p : Policy)
    (f : string) : bool :=
  negb (startswith f "/")
  && (never_fetched (get_feed f)
      || (is_stale now get_last_check_attempt p (get_feed f)
          && fetch_stale_interfaces)).

End Recalculate.

(** The policies agree on everything but the stale set and the warned
    flag. *)
Definition same_settings (p p' : Policy) : Prop :=
  root p' = root p /\ watchers p' = watchers p /\ freshness p' = freshness p
  /\ src p' = src p /\ solver p' = solver p.

(** ** The fixpoint loop: [Policy.solve_with_downloads] *)

(** One turn of the [while True] loop as the world drives it: what the
    solver computes at the top of the turn and, when the task is resumed
    after its [yield], which handles have happened and whether
    [tasks.check(blockers)] raises. *)
Record round := {
  round_answer : solver_answer;
  happened : handle -> bool;
  check_raises : bool
}.

(** How an execution (or the part of it the rounds describe) ends. *)
Inductive outcome :=
| ReadyBreak         (* [break] under [self.solver.ready and not force] *)
| NoDownloadsBreak   (* [break] under [not downloads_in_progress] *)
| CheckRaised        (* [tasks.check(blockers)] raised *)
| Running.           (* the rounds are used up; the loop goes on *)

(** The two local collections of the method. *)
Record downloads := {
  downloads_finished : gset string;
  downloads_in_progress : gmap string handle
}.

(** The body of the loop over [self.solver.feeds_used]. *)
Definition launch_feed (d : downloads) (f : string) : M downloads :=
  if bool_decide (f ∈ downloads_finished d)
     || contains (downloads_in_progress d) f
  then mret d
  else if startswith f "/" then mret d
  else
    (* [feed = iface_cache.get_interface(f)] is not used afterwards *)
    h ← fetcher_download_and_import_feed f;
    mret {| downloads_finished := downloads_finished d;
            downloads_in_progress := <[ f := h ]> (downloads_in_progress d) |}.

Fixpoint launch_feeds (d : downloads) (fs : list string) : M downloads :=
  match fs with
  | [] => mret d
  | f :: fs' => d' ← launch_feed d f; launch_feeds d' fs'
  end.

(** The body of the loop over [downloads_in_progress.keys()]. *)
Definition reap_key (happened : handle -> bool) (d : downloads) (f : string)
  : downloads :=
  match downloads_in_progress d !! f with
  | Some h =>
      if happened h then
        {| downloads_finished := {[ f ]} ∪ downloads_finished d;
           downloads_in_progress := delete f (downloads_in_progress d) |}
      else d
  | None => d  (* cannot occur: the keys are those of the dictionary *)
  end.

Definition reap (happened : handle -> bool) (d : downloads) : downloads :=
  foldl (reap_key happened) d (map_to_list (downloads_in_progress d)).*1.

(** The [while True] loop, one [round] per turn. *)
Fixpoint solve_loop (host_arch : architecture) (rounds : list round)
    (force : bool) (d : downloads) : M (outcome * downloads) :=
  match rounds with
  | [] => mret (Running, d)
  | r :: rounds' =>
      p ← get_policy;
      solver_solve (round_answer r) (root p) host_arch;;
      notify_watchers;;
      p ← get_policy;
      if ready (solver p) && negb force then mret (ReadyBreak, d)
      else
        (* force = True *)
        d ← (if negb (offline p)
             then launch_feeds d (feeds_used (solver p))
             else mret d);
        if bool_decide (downloads_in_progress d = ∅)
        then mret (NoDownloadsBreak, d)
        else
          let blockers := (map_to_list (downloads_in_progress d)).*2 in
          emit (Yield blockers);;
          if check_raises r then mret (CheckRaised, d)
          else solve_loop host_arch rounds' true (reap (happened r) d)
  end.

Definition solve_with_downloads (rounds : list round) (force : bool)
  : M (outcome * downloads) :=
  let d := {| downloads_finished := ∅; downloads_in_progress := ∅ |} in
  p ← get_policy;
  solve_loop (host_arch_of p) rounds force d.

(** The invariant of the loop: the URLs for which a download has been
    started so far are pairwise distinct, and each of them is either still
    in progress or finished, never both. *)
Definition downloads_invariant (started : list string) (d : downloads)
  : Prop :=
  NoDup started
  /\ (forall f, f ∈ started <->
                f ∈ downloads_finished d \/ f ∈ dom (downloads_in_progress d))
  /\ downloads_finished d ## dom (downloads_in_progress d).

Definition no_downloads : downloads :=
  {| downloads_finished := ∅; downloads_in_progress := ∅ |}.

(** ** Sample values for the examples *)

(** A policy as [Policy(root)] builds it when no configuration is found. *)
Definition sample_policy (root_uri : string) : Policy :=
  {| root := root_uri; watchers := [1%nat; 2%nat];
     freshness := 60 * 60 * 24 * 30; src := false; stale_feeds := ∅;
     solver := DefaultSolver network_full; _warned_offline := false |}.


Definition sample_os_ranks : gmap (option string) nat :=
  {[ None := 1%nat; Some "Linux" := 2%nat ]}.
Definition sample_machine_ranks : gmap (option string) nat :=
  {[ None := 1%nat; Some "x86_64" := 2%nat; Some "i486" := 3%nat ]}.

Definition feed_linux_x86_64 : Feed :=
  {| feed_uri := "http://example.com/prog-linux.xml";
     os := Some "Linux"; machine := Some "x86_64" |}.
Definition feed_windows : Feed :=
  {| feed_uri := "http://example.com/prog-windows.xml";
     os := Some "Windows"; machine := Some "i486" |}.
Definition feed_source : Feed :=
  {| feed_uri := "http://example.com/prog-src.xml";
     os := None; machine := Some "src" |}.
Definition feed_any : Feed :=
  {| feed_uri := "/home/user/prog-local.xml"; os := None; machine := None |}.

Definition sample_interface : Interface :=
  {| uri := "http://example.com/prog.xml";
     name := Some "prog";
     feeds := [feed_linux_x86_64; feed_windows; feed_source; feed_any];
     implementations := ∅ |}.

Definition sample_src_policy (root_uri : string) : Policy :=
  {| root := root_uri; watchers := []; freshness := 0; src := true;
     stale_feeds := ∅; solver := DefaultSolver network_full;
     _warned_offline := false |}.

(** A store that holds one implementation. *)
Definition sample_stores_lookup (digest : string) : result string :=
  if String.eqb digest "sha1=3ce644dc725f1d21cfcf02562c76f375944b266a"
  then Return "/var/cache/0install.net/implementations/sha1=3ce644dc725f1d21cfcf02562c76f375944b266a"
  else Raise (NotStored digest).

Definition sample_path_exists (path : string) : bool :=
  String.eqb path "/opt/prog-1.0".

(** An interface whose metadata is known but that lists no implementation. *)
Definition sample_library : Interface :=
  {| uri := "http://example.com/lib.xml";
     name := Some "lib";
     feeds := [];
     implementations := ∅ |}.

(** The same interface once an implementation is known. *)
Definition sample_library_with_impl : Interface :=
  {| uri := "http://example.com/lib.xml";
     name := Some "lib";
     feeds := [];
     implementations :=
       {[ "sha1=3ce644dc725f1d21cfcf02562c76f375944b266a" :=
            ZeroInstallImplementation
              "sha1=3ce644dc725f1d21cfcf02562c76f375944b266a" ]} |}.

(** A configuration file whose [freshness] is not a number. *)
Definition sample_bad_config : config_file :=
  {| config_read := Return tt;
     config_getboolean_help_with_testing := Return true;
     config_get_network_use := Return network_offline;
     int_config_get_freshness :=
       Raise (LibraryError "invalid literal for int() with base 10: 'soon'") |}.

(** A world whose policy is off-line and has not warned yet. *)
Definition sample_offline_world : world :=
  {| policy := set_network_use network_offline
                 (sample_policy "http://example.com/prog.xml");
     next_handle := 0%nat |}.

(** A solve that needs one remote feed, and a cache that has none. *)
Definition sample_answer : solver_answer :=
  {| answer_selections := ∅;
     answer_feeds_used := ["http://example.com/lib.xml"];
     answer_ready := false |}.

Definition sample_online_world : world :=
  {| policy := sample_policy "http://example.com/prog.xml";
     next_handle := 0%nat |}.

(** Three turns of the loop: the first solve uses two remote feeds (one of
    them twice) and a local one, and the first of the two downloads has
    happened when the task resumes; the second solve also uses a third
    remote feed, and everything has happened when the task resumes; the
    third solve is ready. *)
Definition sample_rounds : list round :=
  [ {| round_answer :=
         {| answer_selections := ∅;
            answer_feeds_used :=
              ["http://example.com/a.xml"; "http://example.com/b.xml";
               "http://example.com/a.xml"; "/home/user/local.xml"];
            answer_ready := false |};
       happened := fun h => Nat.eqb h 0;
       check_raises := false |};
    {| round_answer :=
         {| answer_selections := ∅;
            answer_feeds_used :=
              ["http://example.com/a.xml"; "http://example.com/b.xml";
               "http://example.com/c.xml"];
            answer_ready := false |};
       happened := fun _ => true;
       check_raises := false |};
    {| round_answer :=
         {| answer_selections := ∅;
            answer_feeds_used :=
              ["http://example.com/a.xml"; "http://example.com/b.xml";
               "http://example.com/c.xml"];
            answer_ready := true |};
       happened := fun _ => true;
       check_raises := false |} ].

(** A turn whose solve is ready. *)
Definition sample_ready_round : round :=
  {| round_answer :=
       {| answer_selections :=
            {[ "http://example.com/prog.xml" :=
                 Some (ZeroInstallImplementation "/opt/prog-1.0") ]};
          answer_feeds_used := ["http://example.com/prog.xml"];
          answer_ready := true |};
     happened := fun _ => false;
     check_raises := false |}.

(** ** [Policy.get_uncached_implementations] and
    [Policy.download_uncached_implementations] *)

Section Uncached.
Variable stores_lookup : string -> result string.
Variable path_exists : string -> bool.

(** The loop over [self.solver.selections], in the iteration order of the
    dictionary.  [assert impl] fails on [None] only: an implementation
    object is always true. *)
Fixpoint get_uncached_loop (items : list (string * option Implementation))
    (uncached : list (string * Implementation))
  : result (list (string * Implementation)) :=
  match items with
  | [] => Return uncached
  | (iface, impl) :: items' =>
      match impl with
      | None => Raise AssertionError
      | Some impl =>
          cached ← get_cached stores_lookup path_exists impl;
          if negb cached
          then get_uncached_loop items' (uncached ++ [(iface, impl)])
          else get_uncached_loop items' uncached
      end
  end.

Definition get_uncached_implementations (p : Policy)
  : result (list (string * Implementation)) :=
  get_uncached_loop (map_to_list (selections (solver p))) [].

(** The list comprehension over [self.solver.selections.values()].  On a
    [None] value the type test of [get_cached] fails and [impl.id] raises
    [AttributeError]. *)
Fixpoint uncached_values (values : list (option Implementation))
  : result (list Implementation) :=
  match values with
  | [] => Return []
  | None :: _ =>
      Raise (LibraryError "'NoneType' object has no attribute 'id'")
  | Some impl :: values' =>
      cached ← get_cached stores_lookup path_exists impl;
      rest ← uncached_values values';
      Return (if negb cached then impl :: rest else rest)
  end.

(** [download_uncached_implementations]: the list of implementations the
    method hands to [fetcher.download_impls], or the exception it raises
    before the call. *)
Definition download_uncached_implementations (p : Policy)
  : result (list Implementation) :=
  assert (ready (solver p));;
  uncached_values (map_to_list (selections (solver p))).*2.

(** The answer of [get_cached] as a boolean ([get_cached] never raises). *)
Definition is_cached (impl : Implementation) : bool :=
  match get_cached stores_lookup path_exists impl with
  | Return b => b
  | Raise _ => false
  end.

(** The entries of the selections that are not cached. *)
Definition uncached_of (items : list (string * option Implementation))
  : list (string * Implementation) :=
  omap (fun item =>
          match item.2 with
          | Some impl => if is_cached impl then None else Some (item.1, impl)
          | None => None
          end) items.

(** [need_download], given what the solver computes. *)
Definition need_download (a : solver_answer) : M (result bool) :=
  p ← get_policy;
  solver_solve a (root p) (host_arch_of p);;
  notify_watchers;;
  p ← get_policy;
  if negb (ready (solver p)) then mret (Return true)
  else
    match get_uncached_implementations p with
    | Raise ex => mret (Raise ex)
    | Return uncached =>
        if bool_decide (uncached ≠ []) then mret (Return true)
        else mret (Return false)
    end.

End Uncached.

(** ** [Policy.refresh_all] *)

(** The [force] parameter is not used: the loop is always forced. *)
Definition refresh_all (rounds : list round) (force : bool)
  : M (outcome * downloads) :=
  solve_with_downloads rounds true.

(** ** [Policy.get_feed_targets] *)

Section FeedTargets.
(** [iface_cache.get_interface], and the keys of the [feed_for] attribute
    of the interface it returns for a URI, in iteration order. *)
Variable get_interface : string -> Interface.
Variable feed_for : string -> list string.

(** The [debug] line is not recorded. *)
Definition get_feed_targets (feed_iface_uri : string)
  : result (list Interface) * list event :=
  let feed_iface := get_interface feed_iface_uri in
  if negb (bool_decide (feed_for feed_iface_uri ≠ [])) then
    if negb (truthy_str (name feed_iface)) then
      (Raise (SafeException
                ("Can't get feed targets for '" +:+ feed_iface_uri
                 +:+ "'; failed to load interface.")), [])
    else
      (Raise (SafeException
                ("Missing <feed-for> element in '" +:+ feed_iface_uri
                 +:+ "'; this interface can't be used as a feed.")), [])
  else
    let feed_targets := feed_for feed_iface_uri in
    let es :=
      if negb (truthy_str (name feed_iface))
      then [Log WARN ("Warning: unknown interface '" +:+ feed_iface_uri
                      +:+ "'") []]
      else [] in
    (Return (map get_interface feed_targets), es).

End FeedTargets.

(** ** Vocabulary of the further properties *)

(** The feeds a turn of the loop may download: those the solver used that
    are not local files. *)
Definition remote_feeds (a : solver_answer) : list string :=
  List.filter (fun f => negb (startswith f "/")) (answer_feeds_used a).

(** A [break] of the loop. *)
Definition is_break (o : outcome) : bool :=
  match o with
  | ReadyBreak | NoDownloadsBreak => true
  | CheckRaised | Running => false
  end.

(** What every turn of the loop begins with: the run of the solver, then
    the calls of the watchers, in the order of [self.watchers]. *)
Definition turn_start (root_uri : string) (host_arch : architecture)
    (ws : list watcher) : list event :=
  Solve root_uri host_arch :: map Notify ws.

Definition is_download (e : event) : bool :=
  match e with Download _ _ => true | _ => false end.

(** The traces of the loop, by the way the execution ends.  A turn is
    [start], then the downloads it begins, then either nothing more (a
    [break]) or the suspension.  After a suspension comes the next turn,
    unless [tasks.check] raises or the execution is followed no further. *)
Inductive loop_trace (start : list event) : outcome -> list event -> Prop :=
| loop_trace_followed_no_further :
    loop_trace start Running []
| loop_trace_ready :
    loop_trace start ReadyBreak start
| loop_trace_no_downloads ds :
    forallb is_download ds = true ->
    loop_trace start NoDownloadsBreak (start ++ ds)
| loop_trace_raised ds blockers :
    forallb is_download ds = true ->
    loop_trace start CheckRaised (start ++ ds ++ [Yield blockers])
| loop_trace_resumed ds blockers o rest :
    forallb is_download ds = true ->
    loop_trace start o rest ->
    loop_trace start o (start ++ ds ++ Yield blockers :: rest).

(** The number of records of a level in a trace. *)
Definition count_level (lvl : level) (es : list event) : nat :=
  length (List.filter (fun l => match l, lvl with
                                | DEBUG, DEBUG | INFO, INFO | WARN, WARN => true
                                | _, _ => false
                                end) (levels es)).

(** ** Further sample values *)

(** Selections with one stored and one missing implementation. *)
Definition sample_selections : gmap string (option Implementation) :=
  {[ "http://example.com/prog.xml" :=
       Some (ZeroInstallImplementation
               "sha1=3ce644dc725f1d21cfcf02562c76f375944b266a");
     "http://example.com/lib.xml" :=
       Some (ZeroInstallImplementation "sha1=0000") ]}.

Definition sample_selected_answer : solver_answer :=
  {| answer_selections := sample_selections;
     answer_feeds_used := ["http://example.com/prog.xml"];
     answer_ready := true |}.

(** Selections whose only implementation is stored. *)
Definition sample_cached_answer : solver_answer :=
  {| answer_selections :=
       {[ "http://example.com/prog.xml" :=
            Some (ZeroInstallImplementation
                    "sha1=3ce644dc725f1d21cfcf02562c76f375944b266a") ]};
     answer_feeds_used := ["http://example.com/prog.xml"];
     answer_ready := true |}.

(** A turn whose solve uses a local feed only. *)
Definition sample_local_round : round :=
  {| round_answer :=
       {| answer_selections := ∅;
          answer_feeds_used := ["/home/user/local.xml"];
          answer_ready := false |};
     happened := fun _ => true;
     check_raises := false |}.

(** A configuration file that loads. *)
Definition sample_good_config : config_file :=
  {| config_read := Return tt;
     config_getboolean_help_with_testing := Return true;
     config_get_network_use := Return network_minimal;
     int_config_get_freshness := Return 86400 |}.

(** What the warned flag still allows: one warning while it is clear. *)
Definition warnings_left (p : Policy) : nat :=
  if _warned_offline p then 0%nat else 1%nat.

(** The downloads a trace starts, each with its handle. *)
Definition started_downloads (es : list event) : list (string * handle) :=
  omap (fun e => match e with Download f h => Some (f, h) | _ => None end) es.

(** An invariant of the loop about handles: every download in progress is
    kept with the handle the fetcher gave when an event of the trace so far
    started it. *)
Definition handles_invariant (es : list event) (d : downloads) : Prop :=
  forall f h, downloads_in_progress d !! f = Some h ->
              (f, h) ∈ started_downloads es.
(** * Properties *)

(** ** Staleness *)

Section StalenessProperties.
Variable now : Z.
Variable get_last_check_attempt : string -> option Z.
Variable p : Policy.

Local Abbreviation stale := (is_stale now get_last_check_attempt p).
Local Abbreviation recent := (recorded_recent_attempt now get_last_check_attempt).
Local Abbreviation within_hour :=
  (attempted_within_last_hour now get_last_check_attempt).

Lemma is_stale_absent : stale None = true.
Proof. reflexivity. Qed.

Lemma is_stale_local feed :
  startswith (url feed) "/" = true -> stale (Some feed) = false.
Proof. intros H. simpl. now rewrite H. Qed.

Lemma is_stale_never_fetched feed :
  startswith (url feed) "/" = false ->
  last_modified feed = None ->
  stale (Some feed) = true.
Proof. intros Hl Hm. simpl. now rewrite Hl, Hm. Qed.

Lemma is_stale_fresh feed :
  startswith (url feed) "/" = false ->
  last_modified feed <> None ->
  freshness p = 0 \/ now - or_zero (last_checked feed) < freshness p ->
  stale (Some feed) = false.
Proof.
  intros Hl Hm Hf. simpl. rewrite Hl.
  destruct (last_modified feed); [|congruence].
  destruct (freshness p =? 0) eqn:E0; [reflexivity|].
  apply Z.eqb_neq in E0. destruct Hf as [Hf|Hf]; [contradiction|].
  apply Z.ltb_lt in Hf. now rewrite Hf.
Qed.

(** Past the freshness window, the answer is the source's test on the
    last check attempt. *)
Lemma is_stale_candidate feed :
  startswith (url feed) "/" = false ->
  last_modified feed <> None ->
  ~ (freshness p = 0 \/ now - or_zero (last_checked feed) < freshness p) ->
  (stale (Some feed) = false <-> recent (url feed)).
Proof.
  intros Hl Hm Hf. simpl. rewrite Hl.
  destruct (last_modified feed); [|congruence].
  assert (H0 : (freshness p =? 0) = false) by (apply Z.eqb_neq; tauto).
  assert (Hs : (now - or_zero (last_checked feed) <? freshness p) = false)
    by (apply Z.ltb_ge; lia).
  rewrite H0, Hs. simpl.
  unfold recorded_recent_attempt.
  destruct (get_last_check_attempt (url feed)) as [t|] eqn:Ea; simpl.
  - destruct (t =? 0) eqn:Et; simpl.
    + apply Z.eqb_eq in Et. split; [discriminate|].
      intros (t' & Ht' & Hn & _). congruence.
    + apply Z.eqb_neq in Et.
      destruct (now - FAILED_CHECK_DELAY <? t) eqn:Ec.
      * apply Z.ltb_lt in Ec. split; [|reflexivity]. intros _. now exists t.
      * apply Z.ltb_ge in Ec. split; [discriminate|].
        intros (t' & Ht' & _ & Hlt). assert (t' = t) by congruence. lia.
  - split; [discriminate|]. intros (t' & Ht' & _). discriminate.
Qed.

(** Python takes the timestamp [0] as "no attempt".  Once the clock is one
    hour past the epoch that timestamp is more than one hour old anyway,
    and the source's test is the plain "attempted within the last hour". *)
Lemma recorded_recent_attempt_iff u :
  FAILED_CHECK_DELAY <= now -> (recent u <-> within_hour u).
Proof.
  intros Hclock. unfold recorded_recent_attempt, attempted_within_last_hour.
  split.
  - intros (t & Ht & _ & Hlt). now exists t.
  - intros (t & Ht & Hlt). exists t. repeat split; trivial. lia.
Qed.

(** C3. [is_stale] applies its rules in this order, for every feed, every
    clock and every answer of the cache: an absent feed is stale; a feed
    whose URL starts with ['/'] is fresh whatever its timestamps; a feed
    without a last-modified timestamp is stale whatever the freshness
    window, 0 included; otherwise, with
    [staleness = now - last_checked] (a missing [last_checked] counts as 0),
    the feed is fresh when the window is 0 or [staleness] is below it;
    otherwise it is fresh when the cache records a last check attempt whose
    timestamp is not 0 and lies within the last hour, and stale when it
    records none such (a recorded timestamp of exactly 0 is taken as no
    attempt). *)
Theorem is_stale_rules :
  forall feed : option ZeroInstallFeed,
    match feed with
    | None => stale None = true
    | Some f =>
        (startswith (url f) "/" = true -> stale (Some f) = false)
        /\ (startswith (url f) "/" = false ->
            (last_modified f = None -> stale (Some f) = true)
            /\ (last_modified f <> None ->
                let staleness := now - or_zero (last_checked f) in
                let in_window :=
                  freshness p = 0 \/ staleness < freshness p in
                (in_window -> stale (Some f) = false)
                /\ (~ in_window ->
                    (recent (url f) -> stale (Some f) = false)
                    /\ (~ recent (url f) -> stale (Some f) = true))))
    end.
Proof.
  intros [f|]; [|apply is_stale_absent].
  split; [apply is_stale_local|].
  intros Hl. split; [now apply is_stale_never_fetched|].
  intros Hm staleness in_window. split; [now apply is_stale_fresh|].
  intros Hout.
  pose proof (is_stale_candidate f Hl Hm Hout) as Hc.
  split.
  - intros Hw. apply Hc, Hw.
  - intros Hw. destruct (stale (Some f)) eqn:E; [reflexivity|].
    exfalso. apply Hw, Hc. reflexivity.
Qed.

End StalenessProperties.

(** A feed checked two hours ago under a one-hour window, with a failed
    attempt ten minutes ago, is left alone; without that attempt it is
    stale. *)
Lemma is_stale_rules_witness :
  let p := set_freshness 3600 (sample_policy "http://example.com/prog.xml") in
  let f := {| url := "http://example.com/lib.xml";
              last_modified := Some 1000; last_checked := Some 2800 |} in
  is_stale 10000 (fun _ => Some 9400) p (Some f) = false
  /\ is_stale 10000 (fun _ => None) p (Some f) = true.
Proof.
  intros p f. split.
  - refine (proj1 (proj2 (proj2 (proj2
       (is_stale_rules 10000 (fun _ => Some 9400) p (Some f)) _) _) _) _).
    + reflexivity.
    + discriminate.
    + simpl. lia.
    + exists 9400. split; [reflexivity|]. unfold FAILED_CHECK_DELAY. lia.
  - refine (proj2 (proj2 (proj2 (proj2
       (is_stale_rules 10000 (fun _ => None) p (Some f)) _) _) _) _).
    + reflexivity.
    + discriminate.
    + simpl. lia.
    + intros (t & Ht & _). discriminate.
Defined.

(** During the first hour after the epoch the timestamp [0] is a recorded
    attempt less than an hour old.  The feed below is remote, has been
    fetched, lies outside its freshness window and has such an attempt on
    record; [is_stale] still answers that it is stale, where the rule "fresh
    if a check attempt occurred within the last hour" would make it fresh. *)
Example is_stale_epoch_attempt :
  let p := set_freshness 50 (sample_policy "http://example.com/prog.xml") in
  let f := {| url := "http://example.com/lib.xml";
              last_modified := Some 1; last_checked := None |} in
  let attempt := fun _ : string => Some 0 in
  startswith (url f) "/" = false
  /\ last_modified f <> None
  /\ ~ (freshness p = 0 \/ 100 - or_zero (last_checked f) < freshness p)
  /\ attempted_within_last_hour 100 attempt (url f)
  /\ is_stale 100 attempt p (Some f) = true.
Proof.
  intros p f attempt.
  split; [reflexivity|].
  split; [discriminate|].
  split; [simpl; lia|].
  split; [|reflexivity].
  exists 0. split; [reflexivity|]. unfold FAILED_CHECK_DELAY. lia.
Qed.

(** ** Architecture ranking *)

Lemma contains_dom {K V} `{Countable K} (d : gmap K V) (k : K) :
  contains d k = true <-> k ∈ dom d.
Proof.
  unfold contains. rewrite elem_of_dom.
  destruct (d !! k); split; intros Hk; try reflexivity; try discriminate.
  - eauto.
  - destruct Hk as [? Hk]. discriminate.
Qed.

Section ArchitectureProperties.
Variable os_ranks : gmap (option string) nat.
Variable machine_ranks : gmap (option string) nat.

Lemma usable_feeds_loop_filter ranks fs :
  usable_feeds_loop os_ranks ranks fs = filter (supported os_ranks ranks) fs.
Proof.
  induction fs as [|f fs IH]; [reflexivity|].
  simpl. rewrite IH.
  destruct (contains os_ranks (os f)) eqn:Eo;
    destruct (contains ranks (machine f)) eqn:Em; simpl.
  - rewrite filter_cons_True; [reflexivity|].
    split; now apply contains_dom.
  - rewrite filter_cons_False; [reflexivity|].
    intros [_ Hm]. apply contains_dom in Hm. congruence.
  - rewrite filter_cons_False; [reflexivity|].
    intros [Ho _]. apply contains_dom in Ho. congruence.
  - rewrite filter_cons_False; [reflexivity|].
    intros [Ho _]. apply contains_dom in Ho. congruence.
Qed.

(** C8. [usable_feeds] yields exactly the feeds of the interface whose OS
    tag is a key of [arch.os_ranks] and whose machine tag is a key of
    [arch.machine_ranks], in the order of the interface's feed list; for
    the root interface in src-mode the machine table is the single tag
    ['src'], so only feeds with machine tag ['src'] and a supported OS tag
    pass. *)
Theorem usable_feeds_filter (p : Policy) (iface : Interface) :
  (src p = true /\ uri iface = root p ->
   usable_feeds os_ranks machine_ranks p iface
   = filter (fun f => os f ∈ dom os_ranks /\ machine f = Some "src")
            (feeds iface))
  /\ (~ (src p = true /\ uri iface = root p) ->
      usable_feeds os_ranks machine_ranks p iface
      = filter (fun f => os f ∈ dom os_ranks /\ machine f ∈ dom machine_ranks)
               (feeds iface)).
Proof.
  unfold usable_feeds. split.
  - intros [Hs Hr]. rewrite Hs. simpl.
    apply String.eqb_eq in Hr. rewrite Hr.
    rewrite usable_feeds_loop_filter.
    apply list_filter_iff. intros f. unfold supported.
    rewrite dom_singleton_L, elem_of_singleton. reflexivity.
  - intros Hn.
    assert (E : src p && String.eqb (uri iface) (root p) = false).
    { destruct (src p); simpl; [|reflexivity].
      destruct (String.eqb (uri iface) (root p)) eqn:Er; [|reflexivity].
      exfalso. apply Hn. split; [reflexivity|]. now apply String.eqb_eq. }
    rewrite E. apply usable_feeds_loop_filter.
Qed.

End ArchitectureProperties.

(** The sample interface has a Linux binary feed, a Windows feed, a source
    feed and an untagged local feed.  As a dependency it offers the Linux
    and the untagged feed; as the root in src-mode only the source feed. *)
Lemma usable_feeds_filter_witness :
  usable_feeds sample_os_ranks sample_machine_ranks
    (sample_src_policy "http://example.com/prog.xml") sample_interface
  = [feed_source]
  /\ usable_feeds sample_os_ranks sample_machine_ranks
       (sample_src_policy "http://example.com/other.xml") sample_interface
     = [feed_linux_x86_64; feed_any].
Proof.
  split.
  - rewrite (proj1 (usable_feeds_filter sample_os_ranks sample_machine_ranks
                      (sample_src_policy "http://example.com/prog.xml")
                      sample_interface)).
    + vm_compute. reflexivity.
    + split; reflexivity.
  - rewrite (proj2 (usable_feeds_filter sample_os_ranks sample_machine_ranks
                      (sample_src_policy "http://example.com/other.xml")
                      sample_interface)).
    + vm_compute. reflexivity.
    + intros [_ Hr]. discriminate Hr.
Defined.

(** ** Cache presence check *)

Section PresenceProperties.
Variable stores_lookup : string -> result string.
Variable path_exists : string -> bool.

Local Abbreviation cached := (get_cached stores_lookup path_exists).

(** What the [try] block makes of the answer of the stores. *)
Lemma get_cached_store_keyed digest :
  startswith digest "/" = false ->
  cached (ZeroInstallImplementation digest)
  = Return match stores_lookup digest with
           | Return path => negb (String.eqb path "")
           | Raise _ => false
           end.
Proof.
  intros Hl. unfold get_cached, get_implementation_path. simpl.
  rewrite Hl. destruct (stores_lookup digest) as [path|ex]; simpl.
  - destruct (String.eqb path ""); reflexivity.
  - reflexivity.
Qed.

Lemma get_cached_never_raises impl : exists b, cached impl = Return b.
Proof.
  destruct impl as [digest|digest installed]; simpl; [|eauto].
  destruct (startswith digest "/") eqn:Hl; [eauto|].
  unfold get_implementation_path. simpl. rewrite Hl.
  destruct (stores_lookup digest) as [path|ex]; simpl; [|eauto].
  destruct (String.eqb path ""); simpl; eauto.
Qed.

(** C6. [get_cached] never raises, for any implementation.  It tests for
    a distribution package first, and then the answer is the package's
    [installed] flag; otherwise an implementation whose id starts with
    ['/'] is present iff that path exists; any other implementation is
    present iff the lookup in the stores succeeds, and a lookup that
    raises gives [False]. *)
Theorem get_cached_presence :
  (forall impl, exists b, cached impl = Return b)
  /\ (store_contract stores_lookup ->
      forall impl b, cached impl = Return b ->
        match impl with
        | DistributionImplementation _ installed => b = installed
        | ZeroInstallImplementation digest =>
            (startswith digest "/" = true -> b = path_exists digest)
            /\ (startswith digest "/" = false ->
                (b = true <-> exists path, stores_lookup digest = Return path)
                /\ (forall ex, stores_lookup digest = Raise ex -> b = false))
        end).
Proof.
  split; [exact get_cached_never_raises|].
  intros Hstore [digest|digest installed] b.
  - destruct (startswith digest "/") eqn:Hl.
    + simpl. rewrite Hl. intros [= <-].
      split; [reflexivity|discriminate].
    + rewrite (get_cached_store_keyed digest Hl). intros [= <-].
      split; [discriminate|]. intros _.
      destruct (stores_lookup digest) as [path|ex] eqn:El.
      * assert (Hne : String.eqb path "" = false).
        { apply String.eqb_neq. eapply Hstore. exact El. }
        rewrite Hne. simpl. split; [|discriminate].
        split; [eauto|reflexivity].
      * split; [|reflexivity]. split; [discriminate|].
        intros [path Hp]. discriminate.
  - simpl. now intros [= <-].
Qed.

End PresenceProperties.

Lemma sample_store_contract : store_contract sample_stores_lookup.
Proof.
  intros digest path. unfold sample_stores_lookup.
  destruct (String.eqb digest _); intros Hp; inversion Hp. discriminate.
Qed.

(** The stored digest is present, an unknown one is absent. *)
Lemma get_cached_presence_witness :
  get_cached sample_stores_lookup sample_path_exists
    (ZeroInstallImplementation "sha1=3ce644dc725f1d21cfcf02562c76f375944b266a")
  = Return true
  /\ get_cached sample_stores_lookup sample_path_exists
       (ZeroInstallImplementation "sha1=0000") = Return false.
Proof.
  pose proof (get_cached_presence sample_stores_lookup sample_path_exists)
    as [Htotal Hcases].
  split.
  - destruct (Htotal (ZeroInstallImplementation
                        "sha1=3ce644dc725f1d21cfcf02562c76f375944b266a"))
      as [b Hb].
    rewrite Hb. f_equal.
    apply (proj2 (Hcases sample_store_contract _ b Hb) eq_refl).
    eexists. reflexivity.
  - destruct (Htotal (ZeroInstallImplementation "sha1=0000")) as [b Hb].
    rewrite Hb. f_equal.
    apply (proj2 (proj2 (Hcases sample_store_contract _ b Hb) eq_refl)
             (NotStored "sha1=0000")).
    reflexivity.
Defined.

(** A lookup that returned the empty string would fail [assert path]. *)
Example get_cached_empty_path :
  get_cached (fun _ => Return "") sample_path_exists
    (ZeroInstallImplementation "sha1=0000") = Return false.
Proof. reflexivity. Qed.

(** ** [get_implementation] *)

(** C5, the claim as stated fails: for an interface whose metadata is
    known, that lists no implementation and that the selections do not
    cover, the [KeyError] of the dictionary lookup reaches the caller. *)
Lemma get_implementation_raw_KeyError :
  get_implementation (sample_policy "http://example.com/prog.xml")
    sample_library
  = Raise (KeyError "http://example.com/lib.xml").
Proof. reflexivity. Qed.

(** C5, amended.  [get_implementation] raises the "metadata missing"
    [SafeException] when the interface has neither a name nor a feed;
    otherwise it returns the entry of the selections for the interface
    when there is one; otherwise, when the interface lists implementations,
    it raises the "no usable implementation" [SafeException] carrying the
    interface's name, followed by the off-line hint exactly when network
    use is off-line; otherwise the [KeyError] propagates. *)
Theorem get_implementation_outcomes (p : Policy) (interface : Interface) :
  (truthy_str (name interface) = false /\ feeds interface = [] ->
   get_implementation p interface
   = Raise (SafeException (metadata_missing_message interface)))
  /\ (~ (truthy_str (name interface) = false /\ feeds interface = []) ->
      (forall choice,
         selections (solver p) !! uri interface = Some choice ->
         get_implementation p interface = Return choice)
      /\ (selections (solver p) !! uri interface = None ->
          (implementations interface <> ∅ ->
           get_implementation p interface
           = Raise (SafeException
                      (no_usable_implementation_message interface
                         (if offline p then offline_hint else ""))))
          /\ (implementations interface = ∅ ->
              get_implementation p interface
              = Raise (KeyError (uri interface))))).
Proof.
  unfold get_implementation, getitem. split.
  - intros [Hn Hf]. rewrite Hn. simpl.
    rewrite bool_decide_eq_false_2; [reflexivity|]. intros H. now apply H.
  - intros Hmeta.
    assert (E : negb (truthy_str (name interface))
                && negb (bool_decide (feeds interface ≠ [])) = false).
    { destruct (truthy_str (name interface)) eqn:Hn; [reflexivity|]. simpl.
      destruct (bool_decide (feeds interface ≠ [])) eqn:Hf; [reflexivity|].
      exfalso. apply Hmeta. split; [reflexivity|].
      apply bool_decide_eq_false in Hf.
      destruct (feeds interface); [reflexivity|]. exfalso. now apply Hf. }
    rewrite E. split.
    + intros choice Hc. rewrite Hc. reflexivity.
    + intros Hc. rewrite Hc. simpl. split.
      * intros Hi. rewrite bool_decide_eq_true_2; [reflexivity|exact Hi].
      * intros Hi. rewrite bool_decide_eq_false_2; [reflexivity|].
        intros H. now apply H.
Qed.

(** The off-line hint is not empty: the two messages differ. *)
Lemma offline_hint_nonempty : offline_hint <> "".
Proof. discriminate. Qed.

(** The library is not selected.  With an implementation on record the
    caller gets the typed error, with the hint when off-line. *)
Lemma get_implementation_outcomes_witness :
  get_implementation
    (set_network_use network_offline
       (sample_policy "http://example.com/prog.xml"))
    sample_library_with_impl
  = Raise (SafeException
             (no_usable_implementation_message sample_library_with_impl
                offline_hint)).
Proof.
  refine (proj1 (proj2 (proj2
    (get_implementation_outcomes
       (set_network_use network_offline
          (sample_policy "http://example.com/prog.xml"))
       sample_library_with_impl) _) _) _).
  - intros [Hn _]. discriminate Hn.
  - reflexivity.
  - intros H.
    apply (f_equal (fun m => m !! "sha1=3ce644dc725f1d21cfcf02562c76f375944b266a")) in H.
    vm_compute in H. discriminate H.
Defined.

(** ** Construction *)

(** C9, the claim as stated fails: when the configuration file gives
    [help_with_testing] and [network_use] but an unreadable [freshness],
    the error is caught and logged, and the two settings read before it
    keep the values of the file, not their defaults. *)
Lemma init_keeps_partial_config :
  let r := __init__ "http://example.com/prog.xml" false
             (Some sample_bad_config) in
  let default := __init__ "http://example.com/prog.xml" false None in
  levels r.2 = [WARN]
  /\ network_use (solver r.1) = network_offline
  /\ network_use (solver default.1) = network_full
  /\ network_use (solver r.1) <> network_use (solver default.1).
Proof. vm_compute. repeat split; try reflexivity. discriminate. Qed.

(** C9, amended.  Construction always completes.  Without a
    configuration file every setting keeps its default and nothing is
    logged.  With one, the error that ends the loading, if any, is caught
    and logged as one warning.  When the loading ends without error or at
    a read that fails, each setting assigned before the failing read has
    the value read from the file and each later one keeps its default.
    Nothing is stated of the settings when the loading ends at the
    assertion on [network_use]. *)
Theorem init_config (root_uri : string) (src_flag : bool)
    (path : option config_file) :
  let p := (__init__ root_uri src_flag path).1 in
  let es := (__init__ root_uri src_flag path).2 in
  root p = root_uri /\ src p = src_flag /\ watchers p = []
  /\ match path with
     | None =>
         es = []
         /\ help_with_testing (solver p)
            = help_with_testing (DefaultSolver network_full)
         /\ network_use (solver p) = network_full
         /\ freshness p = 60 * 60 * 24 * 30
     | Some config =>
         es = match first_failure config with
              | None => []
              | Some ex => [Log WARN "Error loading config: %s" [exn_str ex]]
              end
         /\ (assertion_fails config = false ->
             help_with_testing (solver p)
             = match config_read config,
                     config_getboolean_help_with_testing config with
               | Return _, Return b => b
               | _, _ => help_with_testing (DefaultSolver network_full)
               end
             /\ network_use (solver p)
                = match config_read config,
                        config_getboolean_help_with_testing config,
                        config_get_network_use config with
                  | Return _, Return _, Return n => n
                  | _, _, _ => network_full
                  end
             /\ freshness p
                = match config_read config,
                        config_getboolean_help_with_testing config,
                        config_get_network_use config,
                        int_config_get_freshness config with
                  | Return _, Return _, Return _, Return f => f
                  | _, _, _, _ => 60 * 60 * 24 * 30
                  end)
     end.
Proof.
  destruct path as [config|]; [|repeat split; reflexivity].
  unfold __init__, load_config, first_failure, assertion_fails.
  destruct (config_read config) as [[]|ex0];
    [|repeat split; reflexivity].
  destruct (config_getboolean_help_with_testing config) as [b|ex1];
    [|repeat split; reflexivity].
  destruct (config_get_network_use config) as [n|ex2];
    [|repeat split; reflexivity].
  destruct (int_config_get_freshness config) as [f|ex3];
    [|repeat split; reflexivity].
  simpl. destruct (bool_decide (n ∈ network_levels));
    repeat split; try reflexivity; discriminate.
Qed.

(** A file whose [freshness] cannot be read: the loading ends at that read,
    the two settings read before it have the file's values and the
    freshness keeps its default of thirty days. *)
Lemma init_config_witness :
  let p := (__init__ "http://example.com/prog.xml" false
              (Some sample_bad_config)).1 in
  assertion_fails sample_bad_config = false
  /\ help_with_testing (solver p) = true
  /\ network_use (solver p) = network_offline
  /\ freshness p = 60 * 60 * 24 * 30.
Proof.
  split; [reflexivity|].
  exact (proj2 (proj2 (proj2 (proj2
    (init_config "http://example.com/prog.xml" false
       (Some sample_bad_config)))))
    eq_refl).
Defined.

(** ** Offline-mode gate *)

(** Split a conjunction into its parts, leaving defined predicates whole. *)
Ltac conj_split := repeat match goal with |- _ /\ _ => split end.

(** Close the parts of a statement about effects that hold by
    computation or by assumption. *)
Ltac settle :=
  conj_split;
  first [ assumption
        | reflexivity
        | solve [repeat split; reflexivity]
        | solve [match goal with
                 | |- context [offline ?p] => destruct (offline p); reflexivity
                 end] ].

Ltac run_M :=
  unfold mbind, mret, M_bind, M_ret, emit, get_policy, modify_policy,
    fetcher_download_and_import_feed; simpl.

Lemma gate_online feed_url w :
  offline (policy w) = false ->
  download_and_import_feed_if_online feed_url w
  = (Some (next_handle w),
     {| policy := policy w; next_handle := S (next_handle w) |},
     [Log DEBUG "Feed %s not cached and not off-line. Downloading..."
          [feed_url];
      Download feed_url (next_handle w)]).
Proof.
  intros Hoff. unfold download_and_import_feed_if_online. run_M.
  rewrite Hoff. reflexivity.
Qed.

Lemma gate_offline_warned feed_url w :
  offline (policy w) = true ->
  _warned_offline (policy w) = true ->
  download_and_import_feed_if_online feed_url w
  = (None, w,
     [Log DEBUG "Not downloading feed '%s' because we are off-line."
          [feed_url]]).
Proof.
  intros Hoff Hw. unfold download_and_import_feed_if_online. run_M.
  rewrite Hoff, Hw. reflexivity.
Qed.

Lemma gate_offline_gui w :
  offline (policy w) = true ->
  _warned_offline (policy w) = false ->
  download_and_import_feed_if_online injector_gui_uri w
  = (None, w,
     [Log INFO
          "Not downloading GUI feed '%s' because we are in off-line mode."
          [injector_gui_uri]]).
Proof.
  intros Hoff Hw. unfold download_and_import_feed_if_online. run_M.
  rewrite Hoff, Hw. reflexivity.
Qed.

Lemma gate_offline_first feed_url w :
  offline (policy w) = true ->
  _warned_offline (policy w) = false ->
  feed_url <> injector_gui_uri ->
  download_and_import_feed_if_online feed_url w
  = (None,
     {| policy := set_warned_offline true (policy w);
        next_handle := next_handle w |},
     [Log WARN "Not downloading feed '%s' because we are in off-line mode."
          [feed_url]]).
Proof.
  intros Hoff Hw Hne. unfold download_and_import_feed_if_online. run_M.
  rewrite Hoff, Hw. apply String.eqb_neq in Hne. rewrite Hne. reflexivity.
Qed.

(** Once the flag is set every suppressed attempt is logged at debug level
    and changes nothing. *)
Lemma attempts_warned urls w :
  offline (policy w) = true ->
  _warned_offline (policy w) = true ->
  (attempts urls w).1.1 = repeat None (length urls)
  /\ (attempts urls w).1.2 = w
  /\ launched (attempts urls w).2 = []
  /\ levels (attempts urls w).2 = repeat DEBUG (length urls).
Proof.
  intros Hoff Hw. induction urls as [|u urls IH]; [repeat split; reflexivity|].
  simpl. unfold mbind, M_bind.
  rewrite (gate_offline_warned u w Hoff Hw).
  destruct (attempts urls w) as [[rs w'] es]. simpl in *.
  destruct IH as (-> & -> & Hl & Hv). unfold mret, M_ret. simpl.
  rewrite ?app_nil_r, Hl, Hv. repeat split; reflexivity.
Qed.

(** Attempts for the GUI feed before any warning: one info record each,
    and the flag stays clear. *)
Lemma attempts_gui_prefix gs urls w :
  offline (policy w) = true ->
  _warned_offline (policy w) = false ->
  Forall (eq injector_gui_uri) gs ->
  (attempts (gs ++ urls) w).1.1
  = repeat None (length gs) ++ (attempts urls w).1.1
  /\ (attempts (gs ++ urls) w).1.2 = (attempts urls w).1.2
  /\ launched (attempts (gs ++ urls) w).2 = launched (attempts urls w).2
  /\ levels (attempts (gs ++ urls) w).2
     = repeat INFO (length gs) ++ levels (attempts urls w).2.
Proof.
  intros Hoff Hw Hgs. induction Hgs as [|g gs <- Hgs IH];
    [repeat split; reflexivity|].
  simpl. unfold mbind, M_bind.
  rewrite (gate_offline_gui w Hoff Hw).
  destruct (attempts (gs ++ urls) w) as [[rs w'] es]. simpl in *.
  destruct IH as (-> & -> & Hl & Hv). unfold mret, M_ret. simpl.
  rewrite ?app_nil_r, Hl, Hv. repeat split; reflexivity.
Qed.

(** C7, the claim as stated fails: when the first suppressed attempt is
    for the GUI feed, the warning is emitted for the second attempt, and
    when every attempt is for the GUI feed no warning is emitted at all. *)
Lemma gate_warning_not_for_first_attempt :
  levels (attempts [injector_gui_uri; "http://example.com/lib.xml"]
            sample_offline_world).2
  = [INFO; WARN]
  /\ levels (attempts [injector_gui_uri; injector_gui_uri]
               sample_offline_world).2
     = [INFO; INFO].
Proof. split; reflexivity. Qed.

(** C7, amended.  While network use is off-line, no attempt returns a
    handle or starts a download, and each is logged once.  A warning is
    emitted at most once: for the first suppressed attempt whose feed is
    not the GUI feed.  Every attempt before it is for the GUI feed and is
    logged at info level, leaving the flag clear; every attempt after the
    flag is set is logged at debug level only. *)
Theorem gate_suppressed_attempts (urls : list string) (w : world) :
  offline (policy w) = true ->
  (attempts urls w).1.1 = repeat None (length urls)
  /\ launched (attempts urls w).2 = []
  /\ (_warned_offline (policy w) = true ->
      levels (attempts urls w).2 = repeat DEBUG (length urls))
  /\ (_warned_offline (policy w) = false ->
      (forall gs u rest,
         urls = gs ++ u :: rest ->
         Forall (eq injector_gui_uri) gs ->
         u <> injector_gui_uri ->
         levels (attempts urls w).2
         = repeat INFO (length gs) ++ WARN :: repeat DEBUG (length rest)
         /\ _warned_offline (policy (attempts urls w).1.2) = true)
      /\ (Forall (eq injector_gui_uri) urls ->
          levels (attempts urls w).2 = repeat INFO (length urls)
          /\ _warned_offline (policy (attempts urls w).1.2) = false)).
Proof.
  intros Hoff.
  (* the attempt that warns, followed by the attempts after it *)
  assert (Hfirst : forall u rest,
    _warned_offline (policy w) = false -> u <> injector_gui_uri ->
    (attempts (u :: rest) w).1.1 = repeat None (length (u :: rest))
    /\ launched (attempts (u :: rest) w).2 = []
    /\ levels (attempts (u :: rest) w).2 = WARN :: repeat DEBUG (length rest)
    /\ _warned_offline (policy (attempts (u :: rest) w).1.2) = true).
  { intros u rest Hw Hne. simpl. unfold mbind, M_bind.
    rewrite (gate_offline_first u w Hoff Hw Hne).
    pose proof (attempts_warned rest
      {| policy := set_warned_offline true (policy w);
         next_handle := next_handle w |} Hoff eq_refl) as (Hr & Hw' & Hl & Hv).
    destruct (attempts rest _) as [[rs w'] es]. simpl in *.
    unfold mret, M_ret. simpl. subst. rewrite ?app_nil_r, Hl, Hv.
    repeat split; reflexivity. }
  (* a sequence is a run of GUI attempts, then possibly a first other one *)
  assert (Hsplit : forall us : list string,
    Forall (eq injector_gui_uri) us
    \/ exists gs u rest, us = gs ++ u :: rest
         /\ Forall (eq injector_gui_uri) gs /\ u <> injector_gui_uri).
  { induction us as [|u us IH]; [left; constructor|].
    destruct (decide (injector_gui_uri = u)) as [<-|Hne].
    - destruct IH as [IH|(gs & x & rest & -> & Hgs & Hx)].
      + left. now constructor.
      + right. exists (injector_gui_uri :: gs), x, rest.
        repeat split; trivial. now constructor.
    - right. exists [], u, us. repeat split; trivial. congruence. }
  destruct (_warned_offline (policy w)) eqn:Hw.
  - pose proof (attempts_warned urls w Hoff Hw) as (Hr & _ & Hl & Hv).
    split; [exact Hr|]. split; [exact Hl|].
    split; [intros _; exact Hv|discriminate].
  - assert (Hgui : forall gs, Forall (eq injector_gui_uri) gs ->
      (attempts gs w).1.1 = repeat None (length gs)
      /\ launched (attempts gs w).2 = []
      /\ levels (attempts gs w).2 = repeat INFO (length gs)
      /\ _warned_offline (policy (attempts gs w).1.2) = false).
    { intros gs Hgs.
      pose proof (attempts_gui_prefix gs [] w Hoff Hw Hgs) as (Hr & Hw' & Hl & Hv).
      rewrite app_nil_r in *. simpl in *. rewrite app_nil_r in *.
      rewrite Hr, Hw', Hl, Hv. repeat split; trivial. }
    assert (Hmixed : forall gs u rest,
      Forall (eq injector_gui_uri) gs -> u <> injector_gui_uri ->
      (attempts (gs ++ u :: rest) w).1.1
      = repeat None (length (gs ++ u :: rest))
      /\ launched (attempts (gs ++ u :: rest) w).2 = []
      /\ levels (attempts (gs ++ u :: rest) w).2
         = repeat INFO (length gs) ++ WARN :: repeat DEBUG (length rest)
      /\ _warned_offline (policy (attempts (gs ++ u :: rest) w).1.2) = true).
    { intros gs u rest Hgs Hne.
      pose proof (attempts_gui_prefix gs (u :: rest) w Hoff Hw Hgs)
        as (Hr & Hw' & Hl & Hv).
      pose proof (Hfirst u rest eq_refl Hne) as (Hr1 & Hl1 & Hv1 & Hw1).
      rewrite Hr, Hw', Hl, Hv, Hr1, Hl1, Hv1, Hw1.
      rewrite length_app, repeat_app. repeat split; reflexivity. }
    destruct (Hsplit urls) as [Hall|(gs & u & rest & E & Hgs & Hne)].
    + pose proof (Hgui urls Hall) as (Hr & Hl & Hv & Hw').
      split; [exact Hr|]. split; [exact Hl|]. split; [discriminate|].
      intros _. split.
      * intros gs u rest -> Hgs Hne.
        apply Forall_app in Hall as [_ Hall]. inversion Hall; congruence.
      * intros _. split; assumption.
    + subst urls.
      pose proof (Hmixed gs u rest Hgs Hne) as (Hr & Hl & Hv & Hw').
      split; [exact Hr|]. split; [exact Hl|]. split; [discriminate|].
      intros _. split.
      * intros gs' u' rest' E Hgs' Hne'. rewrite E.
        pose proof (Hmixed gs' u' rest' Hgs' Hne') as (_ & _ & Hv2 & Hw2).
        split; assumption.
      * intros Hall. apply Forall_app in Hall as [_ Hall].
        inversion Hall; congruence.
Qed.

(** The GUI feed first, then a library twice: info, the one warning, then
    debug. *)
Lemma gate_suppressed_attempts_witness :
  levels (attempts [injector_gui_uri; "http://example.com/lib.xml";
                    "http://example.com/lib.xml"] sample_offline_world).2
  = [INFO; WARN; DEBUG].
Proof.
  refine (proj1 (proj1 (proj2 (proj2 (proj2
    (gate_suppressed_attempts
       [injector_gui_uri; "http://example.com/lib.xml";
        "http://example.com/lib.xml"] sample_offline_world _))) _)
    [injector_gui_uri] "http://example.com/lib.xml"
    ["http://example.com/lib.xml"] _ _ _)).
  - reflexivity.
  - reflexivity.
  - reflexivity.
  - repeat constructor.
  - discriminate.
Defined.

(** ** Traces *)

Lemma launched_app es1 es2 : launched (es1 ++ es2) = launched es1 ++ launched es2.
Proof. apply omap_app. Qed.
Lemma solves_app es1 es2 : solves (es1 ++ es2) = solves es1 ++ solves es2.
Proof. apply omap_app. Qed.
Lemma notified_app es1 es2 : notified (es1 ++ es2) = notified es1 ++ notified es2.
Proof. apply omap_app. Qed.
Lemma yields_app es1 es2 : yields (es1 ++ es2) = yields es1 ++ yields es2.
Proof. apply omap_app. Qed.

Create Rewrite HintDb trace.
#[global] Hint Rewrite launched_app solves_app notified_app yields_app
  @app_nil_r @app_nil_l : trace.

Lemma same_settings_refl p : same_settings p p.
Proof. repeat split. Qed.

Lemma same_settings_trans p1 p2 p3 :
  same_settings p1 p2 -> same_settings p2 p3 -> same_settings p1 p3.
Proof.
  unfold same_settings. intros (?&?&?&?&?) (?&?&?&?&?).
  repeat split; congruence.
Qed.

Lemma same_settings_offline p p' : same_settings p p' -> offline p' = offline p.
Proof. intros (_&_&_&_&Hs). unfold offline. now rewrite Hs. Qed.

(** [for w in self.watchers: w()] calls each watcher once, in order, and
    does nothing else. *)
Lemma for_each_notify ws w :
  for_each ws (fun x => emit (Notify x)) w = (tt, w, map Notify ws).
Proof.
  induction ws as [|x ws IH]; [reflexivity|].
  cbn [for_each]. unfold mbind, M_bind. unfold emit at 1. cbv beta iota.
  rewrite IH. reflexivity.
Qed.

Lemma notify_watchers_run w :
  notify_watchers w = (tt, w, map Notify (watchers (policy w))).
Proof. unfold notify_watchers. run_M. rewrite for_each_notify. reflexivity. Qed.

Lemma notified_map_Notify ws : notified (map Notify ws) = ws.
Proof.
  induction ws as [|x ws IH]; [reflexivity|].
  change (x :: notified (map Notify ws) = x :: ws). now rewrite IH.
Qed.
Lemma launched_map_Notify ws : launched (map Notify ws) = [].
Proof. induction ws; [reflexivity|]. assumption. Qed.
Lemma solves_map_Notify ws : solves (map Notify ws) = [].
Proof. induction ws; [reflexivity|]. assumption. Qed.
Lemma yields_map_Notify ws : yields (map Notify ws) = [].
Proof. induction ws; [reflexivity|]. assumption. Qed.

#[global] Hint Rewrite notified_map_Notify launched_map_Notify
  solves_map_Notify yields_map_Notify : trace.

(** ** Single-pass resolve *)

(** What one call of the gate does, whatever the network use. *)
Lemma gate_effects f w :
  let r := download_and_import_feed_if_online f w in
  same_settings (policy w) (policy r.1.2)
  /\ stale_feeds (policy r.1.2) = stale_feeds (policy w)
  /\ solves r.2 = [] /\ notified r.2 = [] /\ yields r.2 = []
  /\ launched r.2 = (if offline (policy w) then [] else [f]).
Proof.
  destruct (offline (policy w)) eqn:Hoff.
  - destruct (_warned_offline (policy w)) eqn:Hw.
    + rewrite (gate_offline_warned f w Hoff Hw). simpl.
      conj_split; first [reflexivity | repeat split; reflexivity].
    + destruct (decide (f = injector_gui_uri)) as [->|Hne].
      * rewrite (gate_offline_gui w Hoff Hw). simpl. conj_split; first [reflexivity | repeat split; reflexivity].
      * rewrite (gate_offline_first f w Hoff Hw Hne). simpl.
        conj_split; first [reflexivity | repeat split; reflexivity].
  - rewrite (gate_online f w Hoff). simpl. conj_split; first [reflexivity | repeat split; reflexivity].
Qed.

Section RecalculateProperties.
Variable now : Z.
Variable get_feed : string -> option ZeroInstallFeed.
Variable get_last_check_attempt : string -> option Z.
Variable answer : solver_answer.

Local Abbreviation stale := (is_stale now get_last_check_attempt).
Local Abbreviation judged := (judged_stale now get_feed get_last_check_attempt).
Local Abbreviation wants := (wants_download now get_feed get_last_check_attempt).
Local Abbreviation feed_step :=
  (recalculate_feed now get_feed get_last_check_attempt).

(** [is_stale] reads nothing of the policy but its freshness window. *)
Lemma is_stale_same_settings p p' feed :
  same_settings p p' -> stale p' feed = stale p feed.
Proof.
  intros (_&_&Hf&_&_). unfold is_stale. now rewrite Hf.
Qed.

Lemma judged_same_settings p p' f :
  same_settings p p' -> judged p' f = judged p f.
Proof.
  intros H. unfold judged_stale. now rewrite (is_stale_same_settings _ _ _ H).
Qed.

Lemma wants_same_settings fetch p p' f :
  same_settings p p' -> wants fetch p' f = wants fetch p f.
Proof.
  intros H. unfold wants_download. now rewrite (is_stale_same_settings _ _ _ H).
Qed.

(** One turn of the loop over the feeds used. *)
Lemma recalculate_feed_effects fetch f w :
  let r := feed_step fetch f w in
  same_settings (policy w) (policy r.1.2)
  /\ stale_feeds (policy r.1.2)
     = (if judged (policy w) f then {[ f ]} ∪ stale_feeds (policy w)
        else stale_feeds (policy w))
  /\ solves r.2 = [] /\ notified r.2 = [] /\ yields r.2 = []
  /\ launched r.2
     = (if offline (policy w) then []
        else if wants fetch (policy w) f then [f] else []).
Proof.
  unfold recalculate_feed, judged_stale, wants_download.
  destruct (startswith f "/") eqn:Hl; simpl; [settle|].
  destruct (never_fetched (get_feed f)) eqn:Hn; simpl.
  - unfold mbind, M_bind.
    pose proof (gate_effects f w) as (Hs & Hst & H1 & H2 & H3 & H4).
    destruct (download_and_import_feed_if_online f w) as [[r w'] es].
    simpl in *. unfold mret, M_ret. autorewrite with trace. settle.
  - unfold mbind, M_bind, get_policy, emit, modify_policy, mret, M_ret.
    cbv beta iota.
    destruct (stale (policy w) (get_feed f)) eqn:Hs; simpl; [|settle].
    destruct fetch; simpl; [|settle].
    pose proof (gate_effects f
      {| policy := set_stale_feeds ({[f]} ∪ stale_feeds (policy w)) (policy w);
         next_handle := next_handle w |}) as (Hse & Hst & H1 & H2 & H3 & H4).
    destruct (download_and_import_feed_if_online f _) as [[r w'] es].
    simpl in *. autorewrite with trace.
    conj_split; first [assumption | exact Hse | exact H4].
Qed.

(** The whole loop over the feeds used. *)
Lemma recalculate_loop_effects fetch fs : forall w,
  let r := for_each fs (feed_step fetch) w in
  same_settings (policy w) (policy r.1.2)
  /\ stale_feeds (policy r.1.2)
     = list_to_set (List.filter (judged (policy w)) fs) ∪ stale_feeds (policy w)
  /\ solves r.2 = [] /\ notified r.2 = [] /\ yields r.2 = []
  /\ launched r.2
     = (if offline (policy w) then []
        else List.filter (wants fetch (policy w)) fs).
Proof.
  induction fs as [|f fs IH]; intros w; cbv zeta.
  - simpl. conj_split; try reflexivity.
    + apply same_settings_refl.
    + now rewrite union_empty_l_L.
    + now destruct (offline (policy w)).
  - simpl. unfold mbind, M_bind.
    pose proof (recalculate_feed_effects fetch f w) as (Hs & Hst & H1 & H2 & H3 & H4).
    destruct (feed_step fetch f w) as [[[] w1] es1]. simpl in *.
    specialize (IH w1). cbv zeta in IH.
    destruct IH as (Hs' & Hst' & H1' & H2' & H3' & H4').
    destruct (for_each fs (feed_step fetch) w1) as [[[] w2] es2]. simpl in *.
    autorewrite with trace. rewrite H1, H2, H3, H4, H1', H2', H3', H4'.
    rewrite (same_settings_offline _ _ Hs).
    split; [eapply same_settings_trans; eassumption|].
    split.
    + rewrite Hst', Hst.
      assert (Ej : forall l, List.filter (judged (policy w1)) l
                             = List.filter (judged (policy w)) l).
      { intros l. apply List.filter_ext. intros x.
        apply judged_same_settings. exact Hs. }
      rewrite Ej. destruct (judged (policy w) f); simpl; [|reflexivity].
      rewrite (assoc_L (∪)). f_equal. apply (comm_L (∪)).
    + conj_split; try reflexivity.
      destruct (offline (policy w)); [reflexivity|].
      assert (Ew : forall l, List.filter (wants fetch (policy w1)) l
                             = List.filter (wants fetch (policy w)) l).
      { intros l. apply List.filter_ext. intros x.
        apply wants_same_settings. exact Hs. }
      rewrite Ew. now destruct (wants fetch (policy w) f).
Qed.

(** C10. [recalculate] returns the empty list in every state: nothing is
    ever appended to [blockers], so the caller gets no handle for the
    downloads the call started. *)
Theorem recalculate_returns_no_blockers (fetch_stale_interfaces : bool)
    (w : world) :
  (recalculate now get_feed get_last_check_attempt answer
     fetch_stale_interfaces w).1.1 = [].
Proof.
  unfold recalculate, solver_solve.
  unfold mbind, M_bind, mret, M_ret, get_policy, emit, modify_policy.
  cbv beta iota.
  destruct (for_each _ _ _) as [[[] w2] es2].
  rewrite notify_watchers_run. reflexivity.
Qed.

(** C4, amended.  [recalculate] runs the solver exactly once, replaces the
    stale set by the used feeds judged stale, calls every watcher once and
    never suspends to wait for a download.  It does start downloads: unless
    network use is off-line, one for every remote used feed that has never
    been fetched, and one for every stale used feed when stale feeds are to
    be fetched.  Off-line it starts none. *)
Theorem recalculate_effects (fetch_stale_interfaces : bool) (w : world) :
  let r := recalculate now get_feed get_last_check_attempt answer
             fetch_stale_interfaces w in
  let p := policy w in
  solves r.2 = [(root p, host_arch_of p)]
  /\ solver (policy r.1.2) = solved answer (solver p)
  /\ stale_feeds (policy r.1.2)
     = list_to_set (List.filter (judged p) (answer_feeds_used answer))
  /\ notified r.2 = watchers p
  /\ yields r.2 = []
  /\ launched r.2
     = (if offline p then []
        else List.filter (wants fetch_stale_interfaces p)
               (answer_feeds_used answer)).
Proof.
  cbv zeta. unfold recalculate, solver_solve.
  unfold mbind, M_bind, mret, M_ret, get_policy, emit, modify_policy.
  cbv beta iota.
  match goal with
  | |- context [for_each ?fs (feed_step ?fe) ?w1] =>
      pose proof (recalculate_loop_effects fe fs w1) as H; cbv zeta in H;
      remember (for_each fs (feed_step fe) w1) as r eqn:E;
      destruct r as [[[] w2] es2]
  end.
  clear E. rewrite notify_watchers_run. cbn [fst snd] in *.
  destruct H as (Hs & Hst & H1 & H2 & H3 & H4).
  autorewrite with trace. rewrite H1, H2, H3, H4.
  destruct Hs as (Hr & Hwa & Hfr & Hsr & Hso). simpl in *.
  assert (Hoff : offline (set_solver (solved answer (solver (policy w)))
                            (set_stale_feeds ∅ (policy w)))
                 = offline (policy w)) by reflexivity.
  rewrite Hoff in *.
  conj_split; try assumption; try reflexivity.
  - rewrite Hst, union_empty_r_L. f_equal.
  - destruct (offline (policy w)); reflexivity.
Qed.

End RecalculateProperties.

(** C4, the claim as stated fails: on-line, with a used feed that the cache
    does not have, [recalculate] starts a download (and returns no handle
    for it). *)
Lemma recalculate_starts_download :
  let r := recalculate 0 (fun _ => None) (fun _ => None) sample_answer true
             sample_online_world in
  launched r.2 = ["http://example.com/lib.xml"] /\ r.1.1 = [].
Proof. split; reflexivity. Qed.

(** ** The fixpoint loop *)

(** One turn of the loop over the feeds used, in closed form. *)
Lemma launch_feed_run d f w :
  launch_feed d f w
  = if bool_decide (f ∈ downloads_finished d)
       || contains (downloads_in_progress d) f
       || startswith f "/"
    then (d, w, [])
    else ({| downloads_finished := downloads_finished d;
             downloads_in_progress :=
               <[ f := next_handle w ]> (downloads_in_progress d) |},
          {| policy := policy w; next_handle := S (next_handle w) |},
          [Download f (next_handle w)]).
Proof.
  unfold launch_feed.
  destruct (bool_decide (f ∈ downloads_finished d)
            || contains (downloads_in_progress d) f); simpl; [reflexivity|].
  destruct (startswith f "/"); reflexivity.
Qed.

(** The guard of the loop over the feeds used: a download is started for
    [f] only if [f] is neither finished nor in progress (nor local). *)
Lemma launch_feed_guard d f w :
  launched (launch_feed d f w).2 <> [] ->
  (f ∉ downloads_finished d)
  /\ downloads_in_progress d !! f = None
  /\ startswith f "/" = false
  /\ launched (launch_feed d f w).2 = [f].
Proof.
  rewrite launch_feed_run.
  destruct (bool_decide (f ∈ downloads_finished d)) eqn:Hf; simpl;
    [intros H; exfalso; apply H; reflexivity|].
  unfold contains.
  destruct (downloads_in_progress d !! f) eqn:Hp; simpl;
    [intros H; exfalso; apply H; reflexivity|].
  destruct (startswith f "/"); simpl; [intros H; exfalso; apply H; reflexivity|].
  intros _. apply bool_decide_eq_false in Hf. repeat split; trivial.
Qed.

Lemma launch_feed_quiet d f w :
  let r := launch_feed d f w in
  policy r.1.2 = policy w
  /\ solves r.2 = [] /\ notified r.2 = [] /\ yields r.2 = [].
Proof.
  cbv zeta. rewrite launch_feed_run.
  destruct (_ || _ || _); repeat split; reflexivity.
Qed.

Lemma launch_feed_invariant started d f w :
  downloads_invariant started d ->
  downloads_invariant (started ++ launched (launch_feed d f w).2)
    (launch_feed d f w).1.1.
Proof.
  intros Hinv. pose proof Hinv as (Hnd & Hmem & Hdis). rewrite launch_feed_run.
  destruct (bool_decide (f ∈ downloads_finished d)) eqn:Hf; simpl.
  { rewrite app_nil_r. exact Hinv. }
  unfold contains.
  destruct (downloads_in_progress d !! f) eqn:Hp; simpl.
  { rewrite app_nil_r. exact Hinv. }
  destruct (startswith f "/"); simpl.
  { rewrite app_nil_r. exact Hinv. }
  apply bool_decide_eq_false in Hf.
  assert (Hnp : f ∉ dom (downloads_in_progress d))
    by (now apply not_elem_of_dom).
  assert (Hns : f ∉ started) by (rewrite Hmem; tauto).
  unfold downloads_invariant. simpl. split; [|split].
  - apply NoDup_app. split; [exact Hnd|]. split.
    + intros x Hx Hx'. apply list_elem_of_singleton in Hx'. now subst.
    + apply NoDup_singleton.
  - intros x. rewrite elem_of_app, list_elem_of_singleton, dom_insert_L,
      elem_of_union, elem_of_singleton, Hmem. tauto.
  - rewrite dom_insert_L. intros x Hx Hx'.
    apply elem_of_union in Hx' as [Hx'|Hx'].
    + apply elem_of_singleton in Hx'. now subst.
    + exact (Hdis x Hx Hx').
Qed.

Lemma launch_feeds_invariant fs : forall started d w,
  downloads_invariant started d ->
  let r := launch_feeds d fs w in
  downloads_invariant (started ++ launched r.2) r.1.1
  /\ policy r.1.2 = policy w
  /\ solves r.2 = [] /\ notified r.2 = [] /\ yields r.2 = [].
Proof.
  induction fs as [|f fs IH]; intros started d w Hinv; cbv zeta.
  - simpl. rewrite app_nil_r. now conj_split.
  - cbn [launch_feeds]. unfold mbind, M_bind.
    pose proof (launch_feed_invariant started d f w Hinv) as Hinv1.
    pose proof (launch_feed_quiet d f w) as (Hp1 & Hs1 & Hn1 & Hy1).
    destruct (launch_feed d f w) as [[d1 w1] es1]. cbn [fst snd] in *.
    specialize (IH _ d1 w1 Hinv1). cbv zeta in IH.
    destruct IH as (Hinv2 & Hp2 & Hs2 & Hn2 & Hy2).
    destruct (launch_feeds d1 fs w1) as [[d2 w2] es2]. cbn [fst snd] in *.
    autorewrite with trace. rewrite Hs1, Hn1, Hy1, Hs2, Hn2, Hy2.
    rewrite app_assoc. conj_split; trivial; congruence.
Qed.

(** One turn of the loop over the keys of the downloads in progress. *)
Lemma reap_key_invariant happened_ started d f :
  downloads_invariant started d ->
  downloads_invariant started (reap_key happened_ d f).
Proof.
  intros Hinv. pose proof Hinv as (Hnd & Hmem & Hdis). unfold reap_key.
  destruct (downloads_in_progress d !! f) as [h|] eqn:Hp; [|exact Hinv].
  destruct (happened_ h); [|exact Hinv].
  assert (Hin : f ∈ dom (downloads_in_progress d))
    by (apply elem_of_dom; eauto).
  unfold downloads_invariant. simpl. split; [exact Hnd|]. split.
  - intros x. rewrite Hmem, dom_delete_L, elem_of_union, elem_of_singleton,
      elem_of_difference, elem_of_singleton.
    destruct (decide (x = f)) as [->|Hne]; tauto.
  - rewrite dom_delete_L. intros x Hx Hx'.
    apply elem_of_difference in Hx' as [Hx' Hne].
    apply elem_of_union in Hx as [Hx|Hx].
    + apply elem_of_singleton in Hx. apply Hne. now apply elem_of_singleton.
    + exact (Hdis x Hx Hx').
Qed.

Lemma reap_invariant happened_ started d :
  downloads_invariant started d ->
  downloads_invariant started (reap happened_ d).
Proof.
  unfold reap. generalize ((map_to_list (downloads_in_progress d)).*1).
  intros keys. revert d.
  induction keys as [|f keys IH]; intros d Hinv; [exact Hinv|].
  simpl. apply IH. now apply reap_key_invariant.
Qed.

(** One turn of the [while True] loop, in closed form. *)
Lemma solve_loop_step host_arch r rounds force d w :
  solve_loop host_arch (r :: rounds) force d w
  = let w1 := {| policy := set_solver (solved (round_answer r)
                                          (solver (policy w))) (policy w);
                 next_handle := next_handle w |} in
    let es0 := Solve (root (policy w)) host_arch
               :: map Notify (watchers (policy w)) in
    if answer_ready (round_answer r) && negb force
    then ((ReadyBreak, d), w1, es0)
    else
      let '(d1, w2, es1) :=
        if negb (offline (policy w))
        then launch_feeds d (answer_feeds_used (round_answer r)) w1
        else (d, w1, []) in
      let blockers := (map_to_list (downloads_in_progress d1)).*2 in
      if bool_decide (downloads_in_progress d1 = ∅)
      then ((NoDownloadsBreak, d1), w2, es0 ++ es1)
      else if check_raises r
      then ((CheckRaised, d1), w2, es0 ++ es1 ++ [Yield blockers])
      else
        let '(res, w3, es2) :=
          solve_loop host_arch rounds true (reap (happened r) d1) w2 in
        (res, w3, es0 ++ es1 ++ Yield blockers :: es2).
Proof.
  cbn [solve_loop]. unfold solver_solve.
  unfold mbind, M_bind, mret, M_ret, get_policy, emit, modify_policy.
  cbv beta iota zeta. rewrite notify_watchers_run.
  cbn [policy next_handle fst snd].
  change (offline (set_solver (solved (round_answer r) (solver (policy w)))
                     (policy w)))
    with (offline (policy w)).
  cbn [ready solver set_solver solved watchers root feeds_used].
  destruct (answer_ready (round_answer r) && negb force).
  { cbn. now rewrite ?app_nil_r. }
  destruct (negb (offline (policy w))).
  - destruct (launch_feeds _ _ _) as [[d1 w2] es1].
    destruct (bool_decide (downloads_in_progress d1 = ∅)).
    { cbn. now rewrite ?app_nil_r. }
    destruct (check_raises r).
    { cbn. now rewrite ?app_nil_r. }
    destruct (solve_loop _ _ _ _ _) as [[res w3] es2].
    cbn. now rewrite ?app_nil_r.
  - destruct (bool_decide (downloads_in_progress d = ∅)).
    { cbn. now rewrite ?app_nil_r. }
    destruct (check_raises r).
    { cbn. now rewrite ?app_nil_r. }
    destruct (solve_loop _ _ _ _ _) as [[res w3] es2].
    cbn. now rewrite ?app_nil_r.
Qed.

Lemma launched_solve_notify root_uri host_arch ws es :
  launched ((Solve root_uri host_arch :: map Notify ws) ++ es) = launched es.
Proof.
  change (launched (map Notify ws ++ es) = launched es).
  now rewrite launched_app, launched_map_Notify.
Qed.

(** The invariant holds throughout the loop, and the loop leaves by
    [not downloads_in_progress] only when nothing is in progress. *)
Lemma solve_loop_invariant host_arch rounds : forall force d w started,
  downloads_invariant started d ->
  let r := solve_loop host_arch rounds force d w in
  downloads_invariant (started ++ launched r.2) r.1.1.2
  /\ (r.1.1.1 = NoDownloadsBreak -> downloads_in_progress r.1.1.2 = ∅).
Proof.
  induction rounds as [|r rounds IH]; intros force d w started Hinv; cbv zeta.
  - simpl. rewrite app_nil_r. split; [exact Hinv|discriminate].
  - rewrite solve_loop_step. cbv zeta.
    destruct (answer_ready (round_answer r) && negb force).
    { cbn [fst snd].
      rewrite <- (app_nil_r (_ :: map Notify _)), launched_solve_notify.
      rewrite app_nil_r. split; [exact Hinv|discriminate]. }
    set (launch := if negb (offline (policy w)) then _ else _).
    assert (Hl : downloads_invariant (started ++ launched launch.2)
                   launch.1.1).
    { subst launch. destruct (negb (offline (policy w))).
      - apply launch_feeds_invariant. exact Hinv.
      - cbn. rewrite app_nil_r. exact Hinv. }
    clearbody launch. destruct launch as [[d1 w2] es1].
    cbn [fst snd] in Hl.
    destruct (bool_decide (downloads_in_progress d1 = ∅)) eqn:Hempty.
    { cbn [fst snd]. rewrite launched_solve_notify.
      split; [exact Hl|]. intros _. now apply bool_decide_eq_true in Hempty. }
    destruct (check_raises r).
    { cbn [fst snd]. rewrite launched_solve_notify, launched_app.
      cbn. rewrite app_nil_r. split; [exact Hl|discriminate]. }
    specialize (IH true (reap (happened r) d1) w2 (started ++ launched es1)
                  (reap_invariant _ _ _ Hl)).
    cbv zeta in IH.
    destruct (solve_loop host_arch rounds true (reap (happened r) d1) w2)
      as [[res w3] es2].
    cbn [fst snd] in *. rewrite launched_solve_notify, launched_app.
    change (launched (Yield (map_to_list (downloads_in_progress d1)).*2 :: es2))
      with (launched es2).
    rewrite app_assoc. exact IH.
Qed.

(** C1. In every execution of [solve_with_downloads] a download is
    started for a feed URL only if the URL is neither in the finished set
    nor in the in-progress map, so no URL has two downloads and the URLs
    started are exactly those finished or still in progress, never both;
    and when the loop leaves because nothing is in progress, every URL for
    which a download was started is in the finished set. *)
Theorem solve_with_downloads_no_duplicate (rounds : list round)
    (force : bool) (w : world) :
  let r := solve_with_downloads rounds force w in
  let finished := downloads_finished r.1.1.2 in
  let in_progress := downloads_in_progress r.1.1.2 in
  (forall d f w',
     launched (launch_feed d f w').2 <> [] ->
     (f ∉ downloads_finished d) /\ downloads_in_progress d !! f = None)
  /\ NoDup (launched r.2)
  /\ (forall f, f ∈ launched r.2 <-> f ∈ finished \/ f ∈ dom in_progress)
  /\ finished ## dom in_progress
  /\ (r.1.1.1 = NoDownloadsBreak ->
      in_progress = ∅ /\ forall f, f ∈ launched r.2 -> f ∈ finished).
Proof.
  cbv zeta. split.
  { intros d f w' H. destruct (launch_feed_guard d f w' H) as (?&?&_). auto. }
  unfold solve_with_downloads. unfold mbind, M_bind, get_policy.
  cbv beta iota.
  assert (H0 : downloads_invariant [] no_downloads).
  { split; [constructor|]. split.
    - intros f. simpl. rewrite dom_empty_L, elem_of_nil, elem_of_empty. tauto.
    - simpl. apply disjoint_empty_l. }
  pose proof (solve_loop_invariant (host_arch_of (policy w)) rounds force
                no_downloads w [] H0) as Hloop.
  cbv zeta in Hloop. unfold no_downloads in Hloop.
  destruct (solve_loop _ _ _ _ _) as [[[o d] w'] es].
  cbn [fst snd] in *. rewrite app_nil_l in *.
  destruct Hloop as ((Hnd & Hmem & Hdis) & Hexit).
  conj_split; trivial.
  intros Ho. specialize (Hexit Ho). split; [exact Hexit|].
  intros f Hf. apply Hmem in Hf as [Hf|Hf]; [exact Hf|].
  rewrite Hexit, dom_empty_L in Hf. now apply elem_of_empty in Hf.
Qed.

(** On the sample rounds the loop starts one download per remote feed, in
    the order the solver first used them, and leaves with all of them
    finished. *)
Lemma solve_with_downloads_no_duplicate_witness :
  let r := solve_with_downloads sample_rounds false sample_online_world in
  r.1.1.1 = NoDownloadsBreak
  /\ launched r.2
     = ["http://example.com/a.xml"; "http://example.com/b.xml";
        "http://example.com/c.xml"]
  /\ (forall f, f ∈ launched r.2 -> f ∈ downloads_finished r.1.1.2).
Proof.
  cbv zeta.
  assert (Ho : (solve_with_downloads sample_rounds false
                  sample_online_world).1.1.1 = NoDownloadsBreak)
    by (vm_compute; reflexivity).
  split; [exact Ho|]. split; [vm_compute; reflexivity|].
  exact (proj2 (proj2 (proj2 (proj2 (proj2
    (solve_with_downloads_no_duplicate sample_rounds false
       sample_online_world)))) Ho)).
Defined.

(** The trace of a turn that leaves by the ready [break]. *)
Lemma ready_break_trace root_uri host_arch ws :
  let es := Solve root_uri host_arch :: map Notify ws in
  solves es = [(root_uri, host_arch)]
  /\ launched es = [] /\ yields es = [] /\ notified es = ws.
Proof.
  cbv zeta. conj_split.
  - change ((root_uri, host_arch) :: solves (map Notify ws)
            = [(root_uri, host_arch)]).
    now rewrite solves_map_Notify.
  - apply (launched_map_Notify ws).
  - apply (yields_map_Notify ws).
  - apply (notified_map_Notify ws).
Qed.

(** C2. When the first solve is ready and [force] is false, the loop runs
    the solver exactly once, starts no download, never suspends and leaves
    at once; calling it again in the state it left, with the solver giving
    the same answer, does exactly the same and leaves the state as it is. *)
Theorem solve_with_downloads_ready (r : round) (rounds : list round)
    (w : world) :
  answer_ready (round_answer r) = true ->
  let res := solve_with_downloads (r :: rounds) false w in
  res.1.1.1 = ReadyBreak
  /\ solves res.2 = [(root (policy w), host_arch_of (policy w))]
  /\ launched res.2 = []
  /\ yields res.2 = []
  /\ notified res.2 = watchers (policy w)
  /\ res.1.1.2 = no_downloads
  /\ forall rounds',
       solve_with_downloads (r :: rounds') false res.1.2 = res.
Proof.
  intros Hready.
  assert (Hrun : forall rs w0,
    solve_with_downloads (r :: rs) false w0
    = ((ReadyBreak, no_downloads),
       {| policy := set_solver (solved (round_answer r) (solver (policy w0)))
                      (policy w0);
          next_handle := next_handle w0 |},
       Solve (root (policy w0)) (host_arch_of (policy w0))
       :: map Notify (watchers (policy w0)))).
  { intros rs w0. unfold solve_with_downloads, mbind, M_bind, get_policy.
    cbv beta iota. rewrite solve_loop_step. cbv zeta.
    rewrite Hready. reflexivity. }
  cbv zeta. rewrite Hrun. cbn [fst snd].
  destruct (ready_break_trace (root (policy w)) (host_arch_of (policy w))
              (watchers (policy w))) as (Hs & Hl & Hy & Hn).
  conj_split; try assumption; try reflexivity.
  intros rounds'. rewrite Hrun. reflexivity.
Qed.

(** Ready at the first solve: one solve, both watchers called, nothing
    downloaded. *)
Lemma solve_with_downloads_ready_witness :
  let res := solve_with_downloads [sample_ready_round] false
               sample_online_world in
  res.1.1.1 = ReadyBreak
  /\ length (solves res.2) = 1%nat
  /\ launched res.2 = []
  /\ solve_with_downloads [sample_ready_round] false res.1.2 = res.
Proof.
  cbv zeta.
  pose proof (solve_with_downloads_ready sample_ready_round []
                sample_online_world eq_refl) as (Ho & Hs & Hl & _ & _ & _ & Hi).
  split; [exact Ho|]. split; [now rewrite Hs|]. split; [exact Hl|].
  apply Hi.
Defined.

(** * Further properties *)

(** ** Uncached implementations *)

Section UncachedProperties.
Variable stores_lookup : string -> result string.
Variable path_exists : string -> bool.

Local Abbreviation cached := (get_cached stores_lookup path_exists).
Local Abbreviation cachedb := (is_cached stores_lookup path_exists).
Local Abbreviation uncached_loop :=
  (get_uncached_loop stores_lookup path_exists).
Local Abbreviation uncached_impls :=
  (get_uncached_implementations stores_lookup path_exists).

Lemma get_cached_is_cached impl : cached impl = Return (cachedb impl).
Proof.
  unfold is_cached.
  destruct (get_cached_never_raises stores_lookup path_exists impl) as [b Hb].
  now rewrite Hb.
Qed.

Lemma uncached_of_cons_Some iface impl items :
  uncached_of stores_lookup path_exists ((iface, Some impl) :: items)
  = if cachedb impl then uncached_of stores_lookup path_exists items
    else (iface, impl) :: uncached_of stores_lookup path_exists items.
Proof. unfold uncached_of. simpl. now destruct (cachedb impl). Qed.

Lemma uncached_of_cons_None iface items :
  uncached_of stores_lookup path_exists ((iface, None) :: items)
  = uncached_of stores_lookup path_exists items.
Proof. reflexivity. Qed.

(** The loop in closed form. *)
Lemma get_uncached_loop_run items : forall acc,
  uncached_loop items acc
  = if bool_decide (Exists (fun item => item.2 = None) items)
    then Raise AssertionError
    else Return (acc ++ uncached_of stores_lookup path_exists items).
Proof.
  induction items as [|[iface [impl|]] items IH]; intros acc.
  - cbn [get_uncached_loop]. rewrite bool_decide_eq_false_2; [now rewrite app_nil_r|].
    intros H. inversion H.
  - cbn [get_uncached_loop]. rewrite get_cached_is_cached.
    unfold mbind, result_bind. rewrite uncached_of_cons_Some.
    assert (E : bool_decide (Exists (fun item : string * option Implementation =>
                                       item.2 = None) ((iface, Some impl) :: items))
                = bool_decide (Exists (fun item : string * option Implementation =>
                                         item.2 = None) items)).
    { apply bool_decide_ext. rewrite Exists_cons. simpl. split; [|tauto].
      intros [H|H]; [discriminate|exact H]. }
    rewrite E. destruct (cachedb impl); simpl; rewrite IH.
    + reflexivity.
    + destruct (bool_decide _); [reflexivity|]. now rewrite <- app_assoc.
  - cbn [get_uncached_loop]. rewrite bool_decide_eq_true_2; [reflexivity|].
    apply Exists_cons. now left.
Qed.

Lemma elem_of_uncached_of items iface impl :
  (iface, impl) ∈ uncached_of stores_lookup path_exists items
  <-> (iface, Some impl) ∈ items /\ cachedb impl = false.
Proof.
  unfold uncached_of. rewrite list_elem_of_omap. split.
  - intros ([i [x|]] & Hin & Hx); simpl in Hx; [|discriminate].
    destruct (cachedb x) eqn:Ec; [discriminate|].
    injection Hx as <- <-. now split.
  - intros [Hin Hc]. exists (iface, Some impl). split; [exact Hin|].
    simpl. now rewrite Hc.
Qed.

(** The assertion fails exactly on a [None] in the selections. *)
Lemma get_uncached_implementations_assertion_aux (p : Policy) :
  uncached_impls p = Raise AssertionError
  <-> exists iface, selections (solver p) !! iface = Some None.
Proof.
  unfold get_uncached_implementations. rewrite get_uncached_loop_run.
  assert (Hex : Exists (fun item : string * option Implementation =>
                          item.2 = None)
                  (map_to_list (selections (solver p)))
                <-> exists iface, selections (solver p) !! iface = Some None).
  { rewrite Exists_exists. split.
    - intros ([iface impl] & Hin & Hn). simpl in Hn. subst impl.
      exists iface. now apply elem_of_map_to_list.
    - intros [iface Hi]. exists (iface, None). split; [|reflexivity].
      now apply elem_of_map_to_list. }
  destruct (bool_decide _) eqn:Hb.
  - apply bool_decide_eq_true in Hb. apply Hex in Hb. tauto.
  - apply bool_decide_eq_false in Hb. split; [discriminate|]. tauto.
Qed.

(** The members of the list returned. *)
Lemma get_uncached_implementations_exact_aux (p : Policy)
    (l : list (string * Implementation)) :
  uncached_impls p = Return l ->
  forall iface impl,
    (iface, impl) ∈ l
    <-> selections (solver p) !! iface = Some (Some impl)
        /\ cached impl = Return false.
Proof.
  unfold get_uncached_implementations. rewrite get_uncached_loop_run.
  destruct (bool_decide _); [discriminate|].
  intros [= <-] iface impl.
  rewrite elem_of_uncached_of, elem_of_map_to_list.
  rewrite get_cached_is_cached. split.
  - intros [Hs Hc]. now rewrite Hc.
  - intros [Hs [= Hc]]. now split.
Qed.

(** X1. [get_uncached_implementations] raises [AssertionError] exactly
    when some selected interface has no implementation ([None]); otherwise
    it returns a list. *)
Theorem get_uncached_implementations_assertion (p : Policy) :
  (uncached_impls p = Raise AssertionError
   <-> exists iface, selections (solver p) !! iface = Some None)
  /\ ((forall iface, selections (solver p) !! iface <> Some None)
      -> exists l, uncached_impls p = Return l).
Proof.
  split; [apply get_uncached_implementations_assertion_aux|].
  intros Hall.
  destruct (uncached_impls p) as [l|ex] eqn:E; [eauto|]. exfalso.
  assert (ex = AssertionError) as ->.
  { unfold get_uncached_implementations in E.
    rewrite get_uncached_loop_run in E.
    destruct (bool_decide _); congruence. }
  apply get_uncached_implementations_assertion_aux in E as [iface Hi].
  exact (Hall iface Hi).
Qed.

(** X2. When [get_uncached_implementations] returns, the list holds
    exactly the pairs of a selected interface and its implementation for
    which [get_cached] answers [False], each interface at most once. *)
Theorem get_uncached_implementations_exact (p : Policy)
    (l : list (string * Implementation)) :
  uncached_impls p = Return l ->
  (forall iface impl,
     (iface, impl) ∈ l
     <-> selections (solver p) !! iface = Some (Some impl)
         /\ cached impl = Return false)
  /\ NoDup l.*1.
Proof.
  intros Hl. split; [now apply get_uncached_implementations_exact_aux|].
  revert Hl.
  unfold get_uncached_implementations. rewrite get_uncached_loop_run.
  destruct (bool_decide _); [discriminate|].
  intros [= <-].
  pose proof (NoDup_fst_map_to_list (selections (solver p))) as Hnd.
    revert Hnd. generalize (map_to_list (selections (solver p))).
    intros items. induction items as [|[iface [impl|]] items IH];
      intros Hnd; [constructor| |].
    + inversion Hnd as [|? ? Hni Hnd']; subst.
      rewrite uncached_of_cons_Some.
      destruct (cachedb impl); [now apply IH|].
      simpl. constructor; [|now apply IH].
      intros Hin. apply Hni. apply list_elem_of_fmap in Hin as ([i x] & -> & Hx).
      apply elem_of_uncached_of in Hx as [Hx _].
      apply list_elem_of_fmap. now exists (i, Some x).
    + inversion Hnd; subst. rewrite uncached_of_cons_None. now apply IH.
Qed.

Local Abbreviation need := (need_download stores_lookup path_exists).
Local Abbreviation download_uncached :=
  (download_uncached_implementations stores_lookup path_exists).

(** [need_download] in closed form. *)
Lemma need_download_run a w :
  need a w
  = let p1 := set_solver (solved a (solver (policy w))) (policy w) in
    ((if negb (answer_ready a) then Return true
      else match uncached_impls p1 with
           | Raise ex => Raise ex
           | Return uncached =>
               if bool_decide (uncached ≠ []) then Return true
               else Return false
           end),
     {| policy := p1; next_handle := next_handle w |},
     Solve (root (policy w)) (host_arch_of (policy w))
     :: map Notify (watchers (policy w))).
Proof.
  unfold need_download, solver_solve.
  unfold mbind, M_bind, mret, M_ret, get_policy, emit, modify_policy.
  cbv beta iota zeta. rewrite notify_watchers_run.
  cbn [policy next_handle fst snd ready solver set_solver solved watchers].
  destruct (negb (answer_ready a)); [cbn; now rewrite ?app_nil_r|].
  destruct (uncached_impls _) as [l|ex]; [|cbn; now rewrite ?app_nil_r].
  destruct (bool_decide (l ≠ [])); cbn; now rewrite ?app_nil_r.
Qed.

(** X3. [need_download] runs the solver once, calls every watcher once,
    starts no download and never suspends.  It answers [False] exactly
    when the solve is ready and every selected interface has an
    implementation that [get_cached] finds; it answers [True] whenever the
    solve is not ready; it raises [AssertionError] exactly when the solve
    is ready and some selected interface has no implementation. *)
Theorem need_download_decision (a : solver_answer) (w : world) :
  let r := need a w in
  solves r.2 = [(root (policy w), host_arch_of (policy w))]
  /\ notified r.2 = watchers (policy w)
  /\ launched r.2 = [] /\ yields r.2 = []
  /\ (r.1.1 = Return false
      <-> answer_ready a = true
          /\ forall iface choice,
               answer_selections a !! iface = Some choice ->
               exists impl, choice = Some impl /\ cached impl = Return true)
  /\ (answer_ready a = false -> r.1.1 = Return true)
  /\ (r.1.1 = Raise AssertionError
      <-> answer_ready a = true
          /\ exists iface, answer_selections a !! iface = Some None).
Proof.
  cbv zeta. rewrite need_download_run. cbv zeta. cbn [fst snd].
  destruct (ready_break_trace (root (policy w)) (host_arch_of (policy w))
              (watchers (policy w))) as (Hs & Hl & Hy & Hn).
  split; [exact Hs|]. split; [exact Hn|]. split; [exact Hl|].
  split; [exact Hy|].
  set (p1 := set_solver (solved a (solver (policy w))) (policy w)).
  pose proof (get_uncached_implementations_assertion_aux p1) as Hex.
  pose proof (get_uncached_implementations_exact_aux p1) as Hexact.
  change (selections (solver p1)) with (answer_selections a) in *.
  destruct (answer_ready a); simpl.
  2:{ split; [split; [discriminate|intros [? _]; discriminate]|].
      split; [reflexivity|]. split; [discriminate|intros [? _]; discriminate]. }
  destruct (uncached_impls p1) as [l|ex] eqn:El.
  - specialize (Hexact l eq_refl).
    assert (Hnone : ~ exists iface, answer_selections a !! iface = Some None).
    { intros H. apply Hex in H. discriminate. }
    destruct l as [|[i x] l].
    + rewrite bool_decide_eq_false_2 by (intros H; now apply H).
      split; [|split; [discriminate|]].
      * split; [intros _|reflexivity]. split; [reflexivity|].
        intros iface [impl|] Hc; [|exfalso; apply Hnone; eauto].
        exists impl. split; [reflexivity|].
        rewrite get_cached_is_cached. f_equal.
        destruct (cachedb impl) eqn:Ec; [reflexivity|]. exfalso.
        assert (Hin : (iface, impl) ∈ @nil (string * Implementation)).
        { apply Hexact. split; [exact Hc|].
          rewrite get_cached_is_cached. now rewrite Ec. }
        inversion Hin.
      * split; [discriminate|]. intros [_ H]. now destruct Hnone.
    + rewrite bool_decide_eq_true_2 by discriminate.
      split; [|split; [discriminate|]].
      * split; [discriminate|]. intros [_ Hall].
        assert (Hin : (i, x) ∈ (i, x) :: l) by constructor.
        apply Hexact in Hin as [Hc Hf].
        destruct (Hall i (Some x) Hc) as (impl & [= <-] & Ht). congruence.
      * split; [discriminate|]. intros [_ H]. now destruct Hnone.
  - assert (Hraise : ex = AssertionError /\
                     exists iface, answer_selections a !! iface = Some None).
    { unfold get_uncached_implementations in El.
      rewrite get_uncached_loop_run in El.
      destruct (bool_decide _) eqn:Hb; [|discriminate].
      injection El as <-. split; [reflexivity|]. now apply Hex. }
    destruct Hraise as [-> [iface Hi]].
    split; [|split; [discriminate|]].
    + split; [discriminate|]. intros [_ Hall].
      destruct (Hall iface None Hi) as (impl & Himpl & _). discriminate.
    + split; [intros _|reflexivity]. split; [reflexivity|]. eauto.
Qed.

(** The list comprehension in closed form. *)
Lemma uncached_values_run items :
  uncached_values stores_lookup path_exists items.*2
  = if bool_decide (Exists (fun item => item.2 = None) items)
    then Raise (LibraryError "'NoneType' object has no attribute 'id'")
    else Return (uncached_of stores_lookup path_exists items).*2.
Proof.
  induction items as [|[iface [impl|]] items IH].
  - cbn [fmap list_fmap uncached_values].
    rewrite bool_decide_eq_false_2; [reflexivity|].
    intros H. inversion H.
  - cbn [fmap list_fmap snd uncached_values]. rewrite get_cached_is_cached.
    unfold mbind, result_bind. rewrite uncached_of_cons_Some.
    change (list_fmap _ _ snd items) with (items.*2). rewrite IH.
    assert (E : bool_decide (Exists (fun item : string * option Implementation =>
                                       item.2 = None) ((iface, Some impl) :: items))
                = bool_decide (Exists (fun item : string * option Implementation =>
                                         item.2 = None) items)).
    { apply bool_decide_ext. rewrite Exists_cons. simpl. split; [|tauto].
      intros [H|H]; [discriminate|exact H]. }
    rewrite E. destruct (bool_decide _); [reflexivity|].
    now destruct (cachedb impl).
  - cbn [fmap list_fmap snd uncached_values].
    rewrite bool_decide_eq_true_2; [reflexivity|].
    apply Exists_cons. now left.
Qed.

Lemma download_uncached_implementations_request_aux (p : Policy) :
  (ready (solver p) = false -> download_uncached p = Raise AssertionError)
  /\ (ready (solver p) = true ->
      forall l, uncached_impls p = Return l ->
                download_uncached p = Return l.*2).
Proof.
  unfold download_uncached_implementations, get_uncached_implementations.
  rewrite uncached_values_run, get_uncached_loop_run. split.
  - intros ->. reflexivity.
  - intros ->. simpl.
    intros l. destruct (bool_decide _); [discriminate|]. now intros [= <-].
Qed.

(** X4. [download_uncached_implementations] raises [AssertionError]
    unless the solver is ready.  When it is ready and
    [get_uncached_implementations] returns, the implementations handed to
    the fetcher are exactly those of the list that
    [get_uncached_implementations] returns, in the same order; when a
    selected interface has no implementation, the method raises before it
    reaches the fetcher. *)
Theorem download_uncached_implementations_request (p : Policy) :
  (ready (solver p) = false -> download_uncached p = Raise AssertionError)
  /\ (ready (solver p) = true ->
      (forall l, uncached_impls p = Return l ->
                 download_uncached p = Return l.*2)
      /\ ((exists iface, selections (solver p) !! iface = Some None) ->
          exists ex, download_uncached p = Raise ex)).
Proof.
  unfold download_uncached_implementations, get_uncached_implementations.
  rewrite uncached_values_run, get_uncached_loop_run. split.
  - intros ->. reflexivity.
  - intros ->. simpl. split.
    + intros l. destruct (bool_decide _); [discriminate|]. now intros [= <-].
    + intros H. apply get_uncached_implementations_assertion_aux in H.
      unfold get_uncached_implementations in H.
      rewrite get_uncached_loop_run in H.
      destruct (bool_decide _); [eauto|discriminate].
Qed.

(** X5. When [need_download] answers [False], a call of
    [download_uncached_implementations] in the state it leaves hands the
    fetcher an empty list: there is nothing to download. *)
Theorem need_download_false_nothing_to_download (a : solver_answer)
    (w : world) :
  (need a w).1.1 = Return false ->
  download_uncached (policy (need a w).1.2) = Return [].
Proof.
  rewrite need_download_run. cbv zeta. cbn [fst snd policy].
  set (p1 := set_solver (solved a (solver (policy w))) (policy w)).
  destruct (answer_ready a) eqn:Hr; simpl; [|discriminate].
  destruct (uncached_impls p1) as [l|ex] eqn:El; [|discriminate].
  destruct l as [|x l].
  - intros _.
    destruct (download_uncached_implementations_request_aux p1) as [_ H].
    apply (H Hr [] El).
  - rewrite bool_decide_eq_true_2 by discriminate. discriminate.
Qed.

End UncachedProperties.

(** One stored and one missing implementation are selected: the missing
    one is listed. *)
Lemma get_uncached_implementations_exact_witness :
  let p := set_solver (solved sample_selected_answer
                         (solver (sample_policy "http://example.com/prog.xml")))
             (sample_policy "http://example.com/prog.xml") in
  get_uncached_implementations sample_stores_lookup sample_path_exists p
  = Return [("http://example.com/lib.xml",
             ZeroInstallImplementation "sha1=0000")]
  /\ get_cached sample_stores_lookup sample_path_exists
       (ZeroInstallImplementation "sha1=0000") = Return false.
Proof.
  intros p.
  assert (E : get_uncached_implementations sample_stores_lookup
                sample_path_exists p
              = Return [("http://example.com/lib.xml",
                         ZeroInstallImplementation "sha1=0000")])
    by (vm_compute; reflexivity).
  split; [exact E|].
  apply (proj1 (proj1 (get_uncached_implementations_exact
                         sample_stores_lookup sample_path_exists p _ E)
                  "http://example.com/lib.xml"
                  (ZeroInstallImplementation "sha1=0000"))).
  constructor.
Defined.

(** Everything selected is stored: no download is needed and none is
    requested. *)
Lemma need_download_false_nothing_to_download_witness :
  let r := need_download sample_stores_lookup sample_path_exists
             sample_cached_answer sample_online_world in
  r.1.1 = Return false
  /\ download_uncached_implementations sample_stores_lookup
       sample_path_exists (policy r.1.2) = Return [].
Proof.
  intros r.
  assert (E : r.1.1 = Return false) by (vm_compute; reflexivity).
  split; [exact E|].
  exact (need_download_false_nothing_to_download sample_stores_lookup
           sample_path_exists sample_cached_answer sample_online_world E).
Defined.

(** ** The fixpoint loop, continued *)

Lemma launch_feeds_quiet fs : forall d w,
  let r := launch_feeds d fs w in
  policy r.1.2 = policy w
  /\ solves r.2 = [] /\ notified r.2 = [] /\ yields r.2 = []
  /\ levels r.2 = [].
Proof.
  induction fs as [|f fs IH]; intros d w; cbv zeta.
  - now conj_split.
  - cbn [launch_feeds]. unfold mbind, M_bind.
    rewrite launch_feed_run.
    destruct (_ || _ || _).
    + specialize (IH d w). cbv zeta in IH.
      destruct (launch_feeds d fs w) as [[d2 w2] es2]. exact IH.
    + match goal with
      | |- context [launch_feeds ?d1 fs ?w1] =>
          specialize (IH d1 w1); cbv zeta in IH;
          destruct (launch_feeds d1 fs w1) as [[d2 w2] es2]
      end.
      cbn [fst snd policy] in *. exact IH.
Qed.

(** What the loop over the feeds used starts: only remote feeds of the
    list. *)
Lemma launch_feeds_launched fs : forall d w f,
  f ∈ launched (launch_feeds d fs w).2 ->
  f ∈ fs /\ startswith f "/" = false.
Proof.
  induction fs as [|f0 fs IH]; intros d w f.
  - simpl. intros H. inversion H.
  - cbn [launch_feeds]. unfold mbind, M_bind.
    rewrite launch_feed_run.
    destruct (bool_decide (f0 ∈ downloads_finished d)
              || contains (downloads_in_progress d) f0) eqn:Eg; simpl.
    + specialize (IH d w f).
      destruct (launch_feeds d fs w) as [[d2 w2] es2]. simpl in *.
      intros H. destruct (IH H) as [Hin Hl]. split; [now right|exact Hl].
    + destruct (startswith f0 "/") eqn:El.
      * specialize (IH d w f).
        destruct (launch_feeds d fs w) as [[d2 w2] es2]. simpl in *.
        intros H. destruct (IH H) as [Hin Hl]. split; [now right|exact Hl].
      * match goal with
        | |- context [launch_feeds ?d1 fs ?w1] =>
            specialize (IH d1 w1 f);
            destruct (launch_feeds d1 fs w1) as [[d2 w2] es2]
        end.
        cbn [fst snd] in *.
        change (f ∈ f0 :: launched es2 -> f ∈ f0 :: fs /\ startswith f "/" = false).
        intros H. apply elem_of_cons in H as [->|H].
        -- split; [now left|exact El].
        -- destruct (IH H) as [Hin Hl]. split; [now right|exact Hl].
Qed.

Lemma solve_loop_only_remote_used host_arch rounds f : forall force d w,
  f ∈ launched (solve_loop host_arch rounds force d w).2 ->
  startswith f "/" = false
  /\ exists r, r ∈ rounds /\ f ∈ answer_feeds_used (round_answer r).
Proof.
  induction rounds as [|r rounds IH]; intros force d w.
  - simpl. intros H. inversion H.
  - rewrite solve_loop_step. cbv zeta.
    destruct (answer_ready (round_answer r) && negb force).
    { cbn [snd]. rewrite <- (app_nil_r (_ :: map Notify _)),
        launched_solve_notify. intros H. inversion H. }
    set (launch := if negb (offline (policy w)) then _ else _).
    assert (Hl : forall x, x ∈ launched launch.2 ->
                   x ∈ answer_feeds_used (round_answer r)
                   /\ startswith x "/" = false).
    { subst launch. destruct (negb (offline (policy w))).
      - intros x. apply launch_feeds_launched.
      - simpl. intros x H. inversion H. }
    clearbody launch. destruct launch as [[d1 w2] es1]. cbn [fst snd] in Hl.
    assert (Hhere : f ∈ launched es1 ->
              startswith f "/" = false
              /\ exists r0, r0 ∈ r :: rounds
                            /\ f ∈ answer_feeds_used (round_answer r0)).
    { intros H. destruct (Hl f H) as [Hin Hloc]. split; [exact Hloc|].
      exists r. split; [now left|exact Hin]. }
    destruct (bool_decide (downloads_in_progress d1 = ∅)).
    { cbn [snd]. rewrite launched_solve_notify. exact Hhere. }
    destruct (check_raises r).
    { cbn [snd]. rewrite launched_solve_notify, launched_app. cbn.
      rewrite app_nil_r. exact Hhere. }
    specialize (IH true (reap (happened r) d1) w2).
    destruct (solve_loop host_arch rounds true (reap (happened r) d1) w2)
      as [[res w3] es2].
    cbn [snd] in *. rewrite launched_solve_notify, launched_app.
    change (launched (Yield (map_to_list (downloads_in_progress d1)).*2 :: es2))
      with (launched es2).
    intros H. apply elem_of_app in H as [H|H]; [exact (Hhere H)|].
    destruct (IH H) as (Hloc & r0 & Hr0 & Hin). split; [exact Hloc|].
    exists r0. split; [now right|exact Hin].
Qed.

(** X6. Every download the loop starts is for a remote feed that the
    solver used on some turn: a URL that starts with ['/'] is never
    downloaded. *)
Theorem solve_with_downloads_only_remote_used (rounds : list round)
    (force : bool) (w : world) (f : string) :
  f ∈ launched (solve_with_downloads rounds force w).2 ->
  startswith f "/" = false
  /\ exists r, r ∈ rounds /\ f ∈ answer_feeds_used (round_answer r).
Proof.
  unfold solve_with_downloads, mbind, M_bind, get_policy. cbv beta iota.
  pose proof (solve_loop_only_remote_used (host_arch_of (policy w)) rounds f
                force no_downloads w) as H.
  unfold no_downloads in H.
  destruct (solve_loop _ _ _ _ _) as [[res w'] es].
  cbn [fst snd app] in *. exact H.
Qed.

Lemma levels_solve_notify root_uri host_arch ws :
  levels (Solve root_uri host_arch :: map Notify ws) = [].
Proof.
  change (levels (map Notify ws) = []).
  induction ws; [reflexivity|assumption].
Qed.

(** X7. Off-line, [solve_with_downloads] makes a single turn: it runs the
    solver once, starts no download, never suspends, and leaves by the
    ready [break] when the solve is ready and [force] is false, otherwise
    by the [break] on the empty in-progress map, not ready.  It logs
    nothing and leaves the warned flag as it was: the offline-mode gate is
    not consulted. *)
Theorem solve_with_downloads_offline (r : round) (rounds : list round)
    (force : bool) (w : world) :
  offline (policy w) = true ->
  let res := solve_with_downloads (r :: rounds) force w in
  res.1.1.1 = (if answer_ready (round_answer r) && negb force
               then ReadyBreak else NoDownloadsBreak)
  /\ res.1.1.2 = no_downloads
  /\ solves res.2 = [(root (policy w), host_arch_of (policy w))]
  /\ launched res.2 = [] /\ yields res.2 = [] /\ levels res.2 = []
  /\ ready (solver (policy res.1.2)) = answer_ready (round_answer r)
  /\ _warned_offline (policy res.1.2) = _warned_offline (policy w).
Proof.
  intros Hoff. cbv zeta.
  unfold solve_with_downloads, mbind, M_bind, get_policy. cbv beta iota.
  rewrite solve_loop_step. cbv zeta. rewrite Hoff.
  destruct (ready_break_trace (root (policy w)) (host_arch_of (policy w))
              (watchers (policy w))) as (Hs & Hl & Hy & Hn).
  pose proof (levels_solve_notify (root (policy w)) (host_arch_of (policy w))
                (watchers (policy w))) as Hv.
  destruct (answer_ready (round_answer r) && negb force); cbn.
  - rewrite ?app_nil_r. now conj_split.
  - rewrite ?app_nil_r. now conj_split.
Qed.

Lemma solve_with_downloads_offline_witness :
  let res := solve_with_downloads sample_rounds false sample_offline_world in
  res.1.1.1 = NoDownloadsBreak /\ launched res.2 = []
  /\ ready (solver (policy res.1.2)) = false.
Proof.
  cbv zeta.
  pose proof (solve_with_downloads_offline
                (hd sample_ready_round sample_rounds) (tl sample_rounds)
                false sample_offline_world eq_refl)
    as (Ho & _ & _ & Hl & _ & _ & Hr & _).
  split; [exact Ho|]. split; [exact Hl|exact Hr].
Defined.

(** Once forced, the loop cannot leave by the ready [break]. *)
Lemma solve_loop_forced_not_ready_break host_arch rounds : forall d w,
  (solve_loop host_arch rounds true d w).1.1.1 <> ReadyBreak.
Proof.
  induction rounds as [|r rounds IH]; intros d w; [discriminate|].
  rewrite solve_loop_step. cbv zeta. rewrite andb_false_r.
  destruct (if negb (offline (policy w)) then _ else _) as [[d1 w2] es1].
  destruct (bool_decide _); [discriminate|].
  destruct (check_raises r); [discriminate|].
  specialize (IH (reap (happened r) d1) w2).
  destruct (solve_loop host_arch rounds true (reap (happened r) d1) w2)
    as [[res w3] es2].
  exact IH.
Qed.

(** X8. The loop leaves by the ready [break] only on its first turn, with
    [force] false and a ready first solve; then it has run the solver once
    and started no download. *)
Theorem solve_with_downloads_ready_break_first_turn (rounds : list round)
    (force : bool) (w : world) :
  (solve_with_downloads rounds force w).1.1.1 = ReadyBreak ->
  force = false
  /\ (exists r rest, rounds = r :: rest /\ answer_ready (round_answer r) = true)
  /\ length (solves (solve_with_downloads rounds force w).2) = 1%nat
  /\ launched (solve_with_downloads rounds force w).2 = [].
Proof.
  unfold solve_with_downloads, mbind, M_bind, get_policy. cbv beta iota.
  destruct rounds as [|r rest]; [discriminate|].
  rewrite solve_loop_step. cbv zeta.
  destruct (answer_ready (round_answer r) && negb force) eqn:Eb.
  - apply andb_true_iff in Eb as [Hr Hf]. apply negb_true_iff in Hf.
    intros _. destruct (ready_break_trace (root (policy w))
                          (host_arch_of (policy w)) (watchers (policy w)))
      as (Hs & Hl & _).
    cbn [fst snd app]. rewrite Hs, Hl. split; [exact Hf|].
    split; [eauto|]. now split.
  - destruct (if negb (offline (policy w)) then _ else _) as [[d1 w2] es1].
    destruct (bool_decide _); [discriminate|].
    destruct (check_raises r); [discriminate|].
    pose proof (solve_loop_forced_not_ready_break (host_arch_of (policy w))
                  rest (reap (happened r) d1) w2) as Hnot.
    destruct (solve_loop _ rest true (reap (happened r) d1) w2)
      as [[res w3] es2].
    cbn [fst snd] in *. intros Ho. now destruct res as [[] ?].
Qed.

(** The loop leaves at once when the first solve is ready. *)
Lemma solve_with_downloads_ready_break_first_turn_witness :
  let res := solve_with_downloads [sample_ready_round] false
               sample_online_world in
  res.1.1.1 = ReadyBreak /\ length (solves res.2) = 1%nat.
Proof.
  cbv zeta.
  assert (E : (solve_with_downloads [sample_ready_round] false
                 sample_online_world).1.1.1 = ReadyBreak)
    by (vm_compute; reflexivity).
  split; [exact E|].
  exact (proj1 (proj2 (proj2
    (solve_with_downloads_ready_break_first_turn [sample_ready_round] false
       sample_online_world E)))).
Defined.

(** On the sample rounds the first feed is downloaded; it is remote. *)
Lemma solve_with_downloads_only_remote_used_witness :
  "http://example.com/a.xml"
    ∈ launched (solve_with_downloads sample_rounds false
                  sample_online_world).2
  /\ startswith "http://example.com/a.xml" "/" = false.
Proof.
  assert (E : "http://example.com/a.xml"
                ∈ launched (solve_with_downloads sample_rounds false
                              sample_online_world).2)
    by (vm_compute; constructor).
  split; [exact E|].
  exact (proj1 (solve_with_downloads_only_remote_used sample_rounds false
                  sample_online_world _ E)).
Defined.

Lemma solves_turn root_uri host_arch ws es :
  solves ((Solve root_uri host_arch :: map Notify ws) ++ es)
  = (root_uri, host_arch) :: solves es.
Proof.
  rewrite solves_app.
  destruct (ready_break_trace root_uri host_arch ws) as (-> & _). reflexivity.
Qed.

Lemma yields_turn root_uri host_arch ws es :
  yields ((Solve root_uri host_arch :: map Notify ws) ++ es) = yields es.
Proof.
  rewrite yields_app.
  destruct (ready_break_trace root_uri host_arch ws) as (_ & _ & -> & _).
  reflexivity.
Qed.

Lemma notified_turn root_uri host_arch ws es :
  notified ((Solve root_uri host_arch :: map Notify ws) ++ es)
  = ws ++ notified es.
Proof.
  rewrite notified_app.
  destruct (ready_break_trace root_uri host_arch ws) as (_ & _ & _ & ->).
  reflexivity.
Qed.

(** The rhythm of the loop: every turn runs the solver and calls the
    watchers; every turn but a last one that leaves by a [break] ends in a
    suspension on the downloads in progress, of which there is at least
    one. *)
Lemma solve_loop_rhythm host_arch rounds : forall force d w,
  let r := solve_loop host_arch rounds force d w in
  length (solves r.2)
  = (length (yields r.2) + (if is_break r.1.1.1 then 1 else 0))%nat
  /\ notified r.2
     = mjoin (replicate (length (solves r.2)) (watchers (policy w)))
  /\ Forall (fun blockers => blockers <> []) (yields r.2).
Proof.
  induction rounds as [|r rounds IH]; intros force d w; cbv zeta.
  - simpl. now conj_split.
  - rewrite solve_loop_step. cbv zeta.
    destruct (answer_ready (round_answer r) && negb force).
    { cbn [fst snd is_break].
      destruct (ready_break_trace (root (policy w)) host_arch
                  (watchers (policy w))) as (-> & _ & -> & ->).
      simpl. rewrite app_nil_r. now conj_split. }
    set (launch := if negb (offline (policy w)) then _ else _).
    assert (Hl : policy launch.1.2
                 = set_solver (solved (round_answer r) (solver (policy w)))
                     (policy w)
                 /\ solves launch.2 = [] /\ notified launch.2 = []
                 /\ yields launch.2 = []).
    { subst launch. destruct (negb (offline (policy w))).
      - destruct (launch_feeds_quiet (answer_feeds_used (round_answer r)) d
          {| policy := set_solver (solved (round_answer r)
                                     (solver (policy w))) (policy w);
             next_handle := next_handle w |}) as (Hp & Hs & Hn & Hy & _).
        now conj_split.
      - now conj_split. }
    clearbody launch. destruct launch as [[d1 w2] es1]. cbn [fst snd] in Hl.
    destruct Hl as (Hp & Hs1 & Hn1 & Hy1).
    destruct (bool_decide (downloads_in_progress d1 = ∅)) eqn:Hempty.
    { cbn [fst snd is_break].
      rewrite solves_turn, yields_turn, notified_turn, Hs1, Hn1, Hy1.
      simpl. rewrite !app_nil_r. now conj_split. }
    assert (Hblockers : (map_to_list (downloads_in_progress d1)).*2 <> []).
    { apply bool_decide_eq_false in Hempty. intros H.
      apply Hempty. apply map_to_list_empty_iff.
      now apply fmap_nil_inv in H. }
    destruct (check_raises r).
    { cbn [fst snd is_break].
      rewrite solves_turn, yields_turn, notified_turn.
      rewrite solves_app, yields_app, notified_app, Hs1, Hn1, Hy1.
      simpl. rewrite !app_nil_r. conj_split; trivial.
      constructor; [exact Hblockers|constructor]. }
    specialize (IH true (reap (happened r) d1) w2). cbv zeta in IH.
    destruct (solve_loop host_arch rounds true (reap (happened r) d1) w2)
      as [[res w3] es2].
    cbn [fst snd] in *. destruct IH as (Hc & Hn & Hy).
    rewrite solves_turn, yields_turn, notified_turn.
    rewrite solves_app, yields_app, notified_app, Hs1, Hn1, Hy1.
    change (solves (Yield (map_to_list (downloads_in_progress d1)).*2 :: es2))
      with (solves es2).
    change (notified (Yield (map_to_list (downloads_in_progress d1)).*2 :: es2))
      with (notified es2).
    change (yields (Yield (map_to_list (downloads_in_progress d1)).*2 :: es2))
      with ((map_to_list (downloads_in_progress d1)).*2 :: yields es2).
    simpl. rewrite Hp in Hn. simpl in Hn. rewrite Hc, Hn.
    conj_split.
    + lia.
    + rewrite <- Hc. reflexivity.
    + constructor; [exact Hblockers|exact Hy].
Qed.

(** The loop over the feeds used records downloads only. *)
Lemma launch_feeds_only_downloads fs : forall d w,
  forallb is_download (launch_feeds d fs w).2 = true.
Proof.
  induction fs as [|f fs IH]; intros d w.
  - reflexivity.
  - cbn [launch_feeds]. unfold mbind, M_bind.
    rewrite launch_feed_run.
    destruct (_ || _ || _).
    + specialize (IH d w).
      destruct (launch_feeds d fs w) as [[d2 w2] es2]. exact IH.
    + match goal with
      | |- context [launch_feeds ?d1 fs ?w1] =>
          specialize (IH d1 w1);
          destruct (launch_feeds d1 fs w1) as [[d2 w2] es2]
      end.
      cbn [fst snd] in *. exact IH.
Qed.

(** Every trace of the loop has the shape [loop_trace] describes. *)
Lemma solve_loop_trace host_arch rounds : forall force d w,
  let r := solve_loop host_arch rounds force d w in
  loop_trace (turn_start (root (policy w)) host_arch (watchers (policy w)))
    r.1.1.1 r.2.
Proof.
  unfold turn_start.
  induction rounds as [|r rounds IH]; intros force d w; cbv zeta.
  - simpl. constructor.
  - rewrite solve_loop_step. cbv zeta.
    set (start := Solve (root (policy w)) host_arch
                  :: map Notify (watchers (policy w))).
    destruct (answer_ready (round_answer r) && negb force).
    { cbn [fst snd]. apply loop_trace_ready. }
    set (launch := if negb (offline (policy w)) then _ else _).
    assert (Hl : policy launch.1.2
                 = set_solver (solved (round_answer r) (solver (policy w)))
                     (policy w)
                 /\ forallb is_download launch.2 = true).
    { subst launch. destruct (negb (offline (policy w))).
      - split; [|apply launch_feeds_only_downloads].
        apply (launch_feeds_quiet (answer_feeds_used (round_answer r)) d
          {| policy := set_solver (solved (round_answer r)
                                     (solver (policy w))) (policy w);
             next_handle := next_handle w |}).
      - now split. }
    clearbody launch. destruct launch as [[d1 w2] es1]. cbn [fst snd] in Hl.
    destruct Hl as (Hp & Hd).
    destruct (bool_decide (downloads_in_progress d1 = ∅)).
    { cbn [fst snd]. now apply loop_trace_no_downloads. }
    destruct (check_raises r).
    { cbn [fst snd]. now apply loop_trace_raised. }
    specialize (IH true (reap (happened r) d1) w2). cbv zeta in IH.
    rewrite Hp in IH. cbn [root watchers set_solver] in IH.
    fold start in IH.
    destruct (solve_loop host_arch rounds true (reap (happened r) d1) w2)
      as [[res w3] es2].
    cbn [fst snd] in *. now apply loop_trace_resumed.
Qed.

(** Where an event of some kind lies in a list that begins with events of
    other kinds. *)
Lemma app_eq_past (P : event -> Prop) l1 : forall r pre x post,
  Forall (fun e => ~ P e) l1 -> P x ->
  l1 ++ r = pre ++ x :: post ->
  exists pre', pre = l1 ++ pre' /\ r = pre' ++ x :: post.
Proof.
  induction l1 as [|e l1 IH]; intros r pre x post Hl Hx E.
  - exists pre. now split.
  - apply Forall_cons in Hl as [He Hl].
    destruct pre as [|e' pre].
    + simpl in E. injection E as -> _. contradiction.
    + simpl in E. injection E as -> E.
      destruct (IH r pre x post Hl Hx E) as (pre' & -> & ->).
      exists pre'. now split.
Qed.

Lemma downloads_no_yield ds :
  forallb is_download ds = true ->
  Forall (fun e => ~ exists bs, e = Yield bs) ds.
Proof.
  intros H. apply Forall_forall. intros e He [bs ->].
  apply list_elem_of_In in He.
  rewrite forallb_forall in H. specialize (H _ He). discriminate H.
Qed.

Lemma downloads_no_solve ds :
  forallb is_download ds = true ->
  Forall (fun e => ~ exists r a, e = Solve r a) ds.
Proof.
  intros H. apply Forall_forall. intros e He (r & a & ->).
  apply list_elem_of_In in He.
  rewrite forallb_forall in H. specialize (H _ He). discriminate H.
Qed.

Lemma notifies_no_yield ws :
  Forall (fun e => ~ exists bs, e = Yield bs) (map Notify ws).
Proof.
  apply Forall_forall. intros e He [bs ->].
  apply list_elem_of_In, in_map_iff in He. destruct He as (x & Hx & _).
  discriminate Hx.
Qed.

Lemma notifies_no_solve ws :
  Forall (fun e => ~ exists r a, e = Solve r a) (map Notify ws).
Proof.
  apply Forall_forall. intros e He (r & a & ->).
  apply list_elem_of_In, in_map_iff in He. destruct He as (x & Hx & _).
  discriminate Hx.
Qed.

Lemma turn_no_yield root_uri host_arch ws ds :
  forallb is_download ds = true ->
  Forall (fun e => ~ exists bs, e = Yield bs)
    (turn_start root_uri host_arch ws ++ ds).
Proof.
  intros Hd. apply Forall_app. split; [|now apply downloads_no_yield].
  unfold turn_start. apply Forall_cons. split; [|apply notifies_no_yield].
  intros [bs H]. discriminate H.
Qed.

(** A trace of the loop is empty or begins with a turn. *)
Lemma loop_trace_begins start o es :
  loop_trace start o es -> es = [] \/ exists rest, es = start ++ rest.
Proof.
  intros [ | |ds _|ds bs _|ds bs o' rest _ _]; eauto.
  right. exists []. now rewrite app_nil_r.
Qed.

(** In a trace of the loop, what follows a suspension is the next turn. *)
Lemma loop_trace_after_yield root_uri host_arch ws o es :
  loop_trace (turn_start root_uri host_arch ws) o es ->
  forall pre blockers post,
    es = pre ++ Yield blockers :: post ->
    post = [] \/ exists rest, post = turn_start root_uri host_arch ws ++ rest.
Proof.
  set (start := turn_start root_uri host_arch ws).
  induction 1 as [ | |ds Hd|ds bs Hd|ds bs o rest Hd Hrest IH];
    intros pre blockers post E.
  - now destruct pre.
  - exfalso. rewrite <- (app_nil_r start) in E.
    apply (app_eq_past (fun e => exists bs, e = Yield bs)) in E;
      [|rewrite <- (app_nil_r start); now apply turn_no_yield|now eexists].
    destruct E as (pre' & _ & E). now destruct pre'.
  - exfalso. rewrite <- (app_nil_r (start ++ ds)) in E.
    apply (app_eq_past (fun e => exists bs, e = Yield bs)) in E;
      [|now apply turn_no_yield|now eexists].
    destruct E as (pre' & _ & E). now destruct pre'.
  - rewrite app_assoc in E.
    apply (app_eq_past (fun e => exists bs, e = Yield bs)) in E;
      [|now apply turn_no_yield|now eexists].
    destruct E as (pre' & _ & E).
    destruct pre' as [|e pre'].
    + injection E as _ <-. now left.
    + injection E as _ E. now destruct pre'.
  - rewrite app_assoc in E.
    apply (app_eq_past (fun e => exists bs, e = Yield bs)) in E;
      [|now apply turn_no_yield|now eexists].
    destruct E as (pre' & _ & E).
    destruct pre' as [|e pre'].
    + injection E as _ <-. apply (loop_trace_begins _ _ _ Hrest).
    + injection E as _ E. apply (IH _ _ _ E).
Qed.

(** In a trace of the loop, every run of the solver is for the same root
    and architecture, and the calls of the watchers follow it at once. *)
Lemma loop_trace_after_solve root_uri host_arch ws o es :
  loop_trace (turn_start root_uri host_arch ws) o es ->
  forall pre r a post,
    es = pre ++ Solve r a :: post ->
    r = root_uri /\ a = host_arch
    /\ exists rest, post = map Notify ws ++ rest.
Proof.
  assert (Hturn : forall tail rest pre r a post,
    Forall (fun e => ~ exists r a, e = Solve r a) tail ->
    (forall pre r a post, rest = pre ++ Solve r a :: post ->
       r = root_uri /\ a = host_arch
       /\ exists rest', post = map Notify ws ++ rest') ->
    turn_start root_uri host_arch ws ++ tail ++ rest
    = pre ++ Solve r a :: post ->
    r = root_uri /\ a = host_arch
    /\ exists rest', post = map Notify ws ++ rest').
  { intros tail rest pre r a post Ht Hr E. unfold turn_start in E.
    destruct pre as [|e pre].
    - simpl in E. injection E as <- <- <-. eauto.
    - simpl in E. injection E as _ E. rewrite app_assoc in E.
      apply (app_eq_past (fun e => exists r a, e = Solve r a)) in E;
        [|apply Forall_app; split; [apply notifies_no_solve|exact Ht]
         |now do 2 eexists].
      destruct E as (pre' & _ & E). apply (Hr _ _ _ _ E). }
  assert (Hnil : forall pre r a post,
    @nil event = pre ++ Solve r a :: post ->
    r = root_uri /\ a = host_arch
    /\ exists rest', post = map Notify ws ++ rest').
  { intros pre r a post E. now destruct pre. }
  induction 1 as [ | |ds Hd|ds bs Hd|ds bs o rest Hd Hrest IH];
    intros pre r a post E.
  - now destruct pre.
  - apply (Hturn [] [] pre r a post); [constructor|exact Hnil|].
    now rewrite !app_nil_r.
  - apply (Hturn ds [] pre r a post);
      [now apply downloads_no_solve|exact Hnil|].
    now rewrite app_nil_r.
  - apply (Hturn (ds ++ [Yield bs]) [] pre r a post); [|exact Hnil|].
    + apply Forall_app. split; [now apply downloads_no_solve|].
      apply Forall_cons. split; [|constructor].
      intros (r' & a' & H). discriminate H.
    + now rewrite app_nil_r.
  - apply (Hturn (ds ++ [Yield bs]) rest pre r a post); [|exact IH|].
    + apply Forall_app. split; [now apply downloads_no_solve|].
      apply Forall_cons. split; [|constructor].
      intros (r' & a' & H). discriminate H.
    + rewrite <- E. rewrite <- !app_assoc. reflexivity.
Qed.

(** X9. In every execution of [solve_with_downloads] the trace is a
    sequence of turns, each made of one run of the solver on the root for
    the host architecture, then the calls of all the watchers in order,
    then the downloads the turn starts, then the suspension unless the
    turn leaves by a [break].  So what follows a suspension, when the
    execution goes on, is a new run of the solver, and what follows a run
    of the solver is the calls of the watchers.  The number of solves is
    the number of suspensions, plus one when the loop has left by a
    [break], and the watchers called are those of so many rounds. *)
Theorem solve_with_downloads_resolves_after_resume (rounds : list round)
    (force : bool) (w : world) :
  let r := solve_with_downloads rounds force w in
  let start := turn_start (root (policy w)) (host_arch_of (policy w))
                 (watchers (policy w)) in
  loop_trace start r.1.1.1 r.2
  /\ (forall pre blockers post,
        r.2 = pre ++ Yield blockers :: post ->
        post = [] \/ exists rest, post = start ++ rest)
  /\ (forall pre root_uri host_arch post,
        r.2 = pre ++ Solve root_uri host_arch :: post ->
        root_uri = root (policy w) /\ host_arch = host_arch_of (policy w)
        /\ exists rest, post = map Notify (watchers (policy w)) ++ rest)
  /\ length (solves r.2)
     = (length (yields r.2) + (if is_break r.1.1.1 then 1 else 0))%nat
  /\ notified r.2
     = mjoin (replicate (length (solves r.2)) (watchers (policy w))).
Proof.
  cbv zeta.
  unfold solve_with_downloads, mbind, M_bind, get_policy. cbv beta iota.
  pose proof (solve_loop_rhythm (host_arch_of (policy w)) rounds force
                no_downloads w) as H.
  pose proof (solve_loop_trace (host_arch_of (policy w)) rounds force
                no_downloads w) as Ht.
  cbv zeta in H, Ht. unfold no_downloads in H, Ht.
  destruct (solve_loop _ _ _ _ _) as [[res w'] es].
  cbn [fst snd app] in *.
  split; [exact Ht|].
  split; [exact (loop_trace_after_yield _ _ _ _ _ Ht)|].
  split; [exact (loop_trace_after_solve _ _ _ _ _ Ht)|].
  tauto.
Qed.

(** X10. [solve_with_downloads] never suspends on an empty list of
    blockers: whenever it yields, at least one download is in progress. *)
Theorem solve_with_downloads_yields_nonempty (rounds : list round)
    (force : bool) (w : world) :
  Forall (fun blockers => blockers <> [])
    (yields (solve_with_downloads rounds force w).2).
Proof.
  unfold solve_with_downloads, mbind, M_bind, get_policy. cbv beta iota.
  pose proof (solve_loop_rhythm (host_arch_of (policy w)) rounds force
                no_downloads w) as H.
  cbv zeta in H. unfold no_downloads in H.
  destruct (solve_loop _ _ _ _ _) as [[res w'] es].
  cbn [fst snd app] in *. tauto.
Qed.

(** The loop over the keys, key by key. *)
Lemma reap_keys_lookup happened_ keys : forall d f,
  downloads_in_progress (foldl (reap_key happened_) d keys) !! f
  = (if bool_decide (f ∈ keys)
     then match downloads_in_progress d !! f with
          | Some h => if happened_ h then None else Some h
          | None => None
          end
     else downloads_in_progress d !! f)
  /\ (f ∈ downloads_finished (foldl (reap_key happened_) d keys)
      <-> f ∈ downloads_finished d
          \/ (f ∈ keys
              /\ exists h, downloads_in_progress d !! f = Some h
                           /\ happened_ h = true)).
Proof.
  induction keys as [|k keys IH]; intros d f.
  - simpl. split; [reflexivity|]. split; [tauto|].
    intros [H|[H _]]; [exact H|inversion H].
  - cbn [foldl]. destruct (IH (reap_key happened_ d k) f) as [IHl IHf].
    rewrite IHl, IHf. clear IHl IHf. unfold reap_key.
    destruct (decide (f = k)) as [->|Hne].
    + rewrite (bool_decide_eq_true_2 (k ∈ k :: keys)) by now left.
      destruct (downloads_in_progress d !! k) as [h|] eqn:Hk.
      * destruct (happened_ h) eqn:Hh; simpl.
        -- rewrite lookup_delete_eq. split; [now destruct (bool_decide _)|].
           rewrite elem_of_union, elem_of_singleton. split.
           ++ intros [[_|H]|(_ & h' & Hl & _)].
              ** right. split; [now left|eauto].
              ** now left.
              ** discriminate.
           ++ intros _. left. now left.
        -- rewrite Hk, Hh. split; [now destruct (bool_decide _)|].
           split.
           ++ intros [H|(_ & h' & [= <-] & Hh')]; [now left|congruence].
           ++ intros [H|(_ & h' & [= <-] & Hh')]; [now left|congruence].
      * rewrite Hk. split; [now destruct (bool_decide _)|].
        split.
        -- intros [H|(_ & h' & Hl & _)]; [now left|discriminate].
        -- intros [H|(_ & h' & Hl & _)]; [now left|discriminate].
    + assert (Hin : f ∈ k :: keys <-> f ∈ keys).
      { rewrite elem_of_cons. tauto. }
      rewrite (bool_decide_ext _ _ Hin).
      assert (Hlook : downloads_in_progress
                        match downloads_in_progress d !! k with
                        | Some h =>
                            if happened_ h
                            then {| downloads_finished :=
                                      {[k]} ∪ downloads_finished d;
                                    downloads_in_progress :=
                                      delete k (downloads_in_progress d) |}
                            else d
                        | None => d
                        end !! f = downloads_in_progress d !! f).
      { destruct (downloads_in_progress d !! k) as [h|]; [|reflexivity].
        destruct (happened_ h); [|reflexivity].
        simpl. now rewrite lookup_delete_ne. }
      assert (Hfin : f ∈ downloads_finished
                        match downloads_in_progress d !! k with
                        | Some h =>
                            if happened_ h
                            then {| downloads_finished :=
                                      {[k]} ∪ downloads_finished d;
                                    downloads_in_progress :=
                                      delete k (downloads_in_progress d) |}
                            else d
                        | None => d
                        end <-> f ∈ downloads_finished d).
      { destruct (downloads_in_progress d !! k) as [h|]; [|reflexivity].
        destruct (happened_ h); [|reflexivity].
        simpl. rewrite elem_of_union, elem_of_singleton. tauto. }
      rewrite Hlook, Hfin, Hin. tauto.
Qed.

(** X11. When the task resumes, exactly the downloads whose handle has
    happened move from the in-progress map to the finished set: a download
    that has not happened stays in progress with its handle, a finished
    URL stays finished, and nothing else changes. *)
Theorem reap_moves_happened (happened_ : handle -> bool) (d : downloads)
    (f : string) :
  downloads_in_progress (reap happened_ d) !! f
  = match downloads_in_progress d !! f with
    | Some h => if happened_ h then None else Some h
    | None => None
    end
  /\ (f ∈ downloads_finished (reap happened_ d)
      <-> f ∈ downloads_finished d
          \/ exists h, downloads_in_progress d !! f = Some h
                       /\ happened_ h = true).
Proof.
  unfold reap.
  destruct (reap_keys_lookup happened_
              (map_to_list (downloads_in_progress d)).*1 d f) as [Hl Hf].
  assert (Hkeys : f ∈ (map_to_list (downloads_in_progress d)).*1
                  <-> is_Some (downloads_in_progress d !! f)).
  { rewrite list_elem_of_fmap. split.
    - intros ([k h] & -> & Hin). apply elem_of_map_to_list in Hin. eauto.
    - intros [h Hh]. exists (f, h). split; [reflexivity|].
      now apply elem_of_map_to_list. }
  split.
  - rewrite Hl. destruct (bool_decide _) eqn:Hb; [reflexivity|].
    apply bool_decide_eq_false in Hb.
    destruct (downloads_in_progress d !! f) as [h|] eqn:E; [|reflexivity].
    exfalso. apply Hb, Hkeys. eauto.
  - rewrite Hf. split.
    + intros [H|(_ & H)]; [now left|now right].
    + intros [H|(h & Hh & Hhap)]; [now left|].
      right. split; [apply Hkeys; eauto|eauto].
Qed.

(** The loop over the feeds used forgets nothing. *)
Lemma launch_feeds_keeps fs : forall d w f,
  f ∈ downloads_finished d \/ f ∈ dom (downloads_in_progress d) ->
  f ∈ downloads_finished (launch_feeds d fs w).1.1
  \/ f ∈ dom (downloads_in_progress (launch_feeds d fs w).1.1).
Proof.
  induction fs as [|f0 fs IH]; intros d w f Hin; [exact Hin|].
  cbn [launch_feeds]. unfold mbind, M_bind. rewrite launch_feed_run.
  destruct (_ || _ || _).
  - specialize (IH d w f Hin).
    destruct (launch_feeds d fs w) as [[d2 w2] es2]. exact IH.
  - match goal with
    | |- context [launch_feeds ?d1 fs ?w1] =>
        specialize (IH d1 w1 f);
        destruct (launch_feeds d1 fs w1) as [[d2 w2] es2]
    end.
    cbn [fst snd downloads_finished downloads_in_progress] in *.
    apply IH. rewrite dom_insert_L, elem_of_union. tauto.
Qed.

(** After the loop over the feeds used, every remote feed of the list is
    finished or in progress. *)
Lemma launch_feeds_covers fs : forall d w f,
  f ∈ fs -> startswith f "/" = false ->
  f ∈ downloads_finished (launch_feeds d fs w).1.1
  \/ f ∈ dom (downloads_in_progress (launch_feeds d fs w).1.1).
Proof.
  pose proof launch_feeds_keeps as Hkeep.
  induction fs as [|f0 fs IH]; intros d w f Hin Hloc; [inversion Hin|].
  apply elem_of_cons in Hin as [->|Hin].
  - cbn [launch_feeds]. unfold mbind, M_bind. rewrite launch_feed_run.
    rewrite Hloc, orb_false_r.
    destruct (bool_decide (f0 ∈ downloads_finished d)) eqn:Hf; simpl.
    + apply bool_decide_eq_true in Hf.
      pose proof (Hkeep fs d w f0 (or_introl Hf)) as H.
      destruct (launch_feeds d fs w) as [[d2 w2] es2]. exact H.
    + destruct (contains (downloads_in_progress d) f0) eqn:Hc.
      * apply contains_dom in Hc.
        pose proof (Hkeep fs d w f0 (or_intror Hc)) as H.
        destruct (launch_feeds d fs w) as [[d2 w2] es2]. exact H.
      * match goal with
        | |- context [launch_feeds ?d1 fs ?w1] =>
            pose proof (Hkeep fs d1 w1 f0) as H;
            destruct (launch_feeds d1 fs w1) as [[d2 w2] es2]
        end.
        cbn [fst snd downloads_finished downloads_in_progress] in *.
        apply H. right. rewrite dom_insert_L, elem_of_union, elem_of_singleton.
        now left.
  - cbn [launch_feeds]. unfold mbind, M_bind.
    destruct (launch_feed d f0 w) as [[d1 w1] es1].
    specialize (IH d1 w1 f Hin Hloc).
    destruct (launch_feeds d1 fs w1) as [[d2 w2] es2]. exact IH.
Qed.

Lemma no_downloads_invariant : downloads_invariant [] no_downloads.
Proof.
  split; [constructor|]. split.
  - intros f. simpl. rewrite dom_empty_L, elem_of_nil, elem_of_empty. tauto.
  - simpl. apply disjoint_empty_l.
Qed.

Lemma elem_of_remote_feeds a f :
  f ∈ remote_feeds a
  <-> f ∈ answer_feeds_used a /\ startswith f "/" = false.
Proof.
  unfold remote_feeds. rewrite !list_elem_of_In, List.filter_In.
  rewrite negb_true_iff. reflexivity.
Qed.

(** X12. [refresh_all] ignores its [force] parameter and always forces the
    loop.  Whatever the network use, it never leaves by the ready [break],
    and when the first solve uses no remote feed it leaves after that
    solve and starts nothing.  Unless network use is off-line it starts a
    download for every remote feed the first solve used, even when that
    solve is ready. *)
Theorem refresh_all_downloads_used_feeds (r : round) (rounds : list round)
    (force : bool) (w : world) :
  let res := refresh_all (r :: rounds) force w in
  res.1.1.1 <> ReadyBreak
  /\ (remote_feeds (round_answer r) = [] ->
      res.1.1.1 = NoDownloadsBreak /\ launched res.2 = [])
  /\ (offline (policy w) = false ->
      forall f, f ∈ remote_feeds (round_answer r) -> f ∈ launched res.2).
Proof.
  cbv zeta.
  unfold refresh_all, solve_with_downloads, mbind, M_bind, get_policy.
  cbv beta iota.
  pose proof (solve_loop_forced_not_ready_break (host_arch_of (policy w))
                (r :: rounds) no_downloads w) as Hnot.
  unfold no_downloads in Hnot. revert Hnot.
  rewrite solve_loop_step. cbv zeta. rewrite andb_false_r.
  destruct (offline (policy w)) eqn:Hoff; cbn [negb].
  { (* off-line: no download is started, whatever the solver used *)
    cbn [downloads_in_progress].
    rewrite bool_decide_eq_true_2 by reflexivity.
    cbn [fst snd]. rewrite app_nil_l. intros _.
    rewrite launched_solve_notify.
    split; [discriminate|]. split; [now split|discriminate]. }
  set (w1 := {| policy := set_solver (solved (round_answer r)
                                        (solver (policy w))) (policy w);
                next_handle := next_handle w |}).
  pose proof (launch_feeds_invariant (answer_feeds_used (round_answer r))
                [] no_downloads w1 no_downloads_invariant)
    as ((_ & Hmem & _) & _).
  pose proof (fun f => launch_feeds_covers (answer_feeds_used (round_answer r))
                         no_downloads w1 f) as Hcov.
  pose proof (fun f => launch_feeds_launched
                         (answer_feeds_used (round_answer r))
                         no_downloads w1 f) as Honly.
  unfold no_downloads in Hmem, Hcov, Honly.
  destruct (launch_feeds _ _ w1) as [[d1 w2] es1].
  cbn [fst snd app] in Hmem, Hcov, Honly.
  assert (Hstarted : forall f, f ∈ remote_feeds (round_answer r) ->
                               f ∈ launched es1).
  { intros f Hf. apply elem_of_remote_feeds in Hf as [Hin Hloc].
    apply Hmem. exact (Hcov f Hin Hloc). }
  assert (Hnone : remote_feeds (round_answer r) = [] ->
                  downloads_in_progress d1 = ∅ /\ launched es1 = []).
  { intros Hr.
    assert (Hl : launched es1 = []).
    { destruct (launched es1) as [|f l] eqn:El; [reflexivity|]. exfalso.
      assert (Hf : f ∈ remote_feeds (round_answer r)).
      { apply elem_of_remote_feeds. apply Honly. now left. }
      rewrite Hr in Hf. inversion Hf. }
    split; [|exact Hl]. apply map_eq. intros f. rewrite lookup_empty.
    destruct (downloads_in_progress d1 !! f) as [h|] eqn:E; [|reflexivity].
    exfalso. assert (Hf : f ∈ launched es1).
    { apply Hmem. right. apply elem_of_dom. eauto. }
    rewrite Hl in Hf. inversion Hf. }
  destruct (bool_decide (downloads_in_progress d1 = ∅)) eqn:Hempty.
  { cbn [fst snd]. rewrite app_nil_l. intros _. rewrite launched_solve_notify.
    split; [discriminate|]. split; [|intros _; exact Hstarted].
    intros Hr. split; [reflexivity|]. apply (Hnone Hr). }
  apply bool_decide_eq_false in Hempty.
  destruct (check_raises r).
  { cbn [fst snd]. rewrite app_nil_l. intros _.
    rewrite launched_solve_notify, launched_app.
    split; [discriminate|]. split.
    - intros Hr. now destruct (Hnone Hr).
    - intros _ f Hf. apply elem_of_app. left. now apply Hstarted. }
  destruct (solve_loop _ rounds true (reap (happened r) d1) w2)
    as [[res w3] es2].
  cbn [fst snd]. rewrite app_nil_l. intros Hnot.
  rewrite launched_solve_notify, launched_app.
  split; [exact Hnot|]. split.
  - intros Hr. now destruct (Hnone Hr).
  - intros _ f Hf. apply elem_of_app. left. now apply Hstarted.
Qed.

(** A refresh with a ready solve still downloads the feed it used; off-line,
    a refresh of a program that uses only local feeds leaves at once. *)
Lemma refresh_all_downloads_used_feeds_witness :
  "http://example.com/prog.xml"
    ∈ launched (refresh_all [sample_ready_round] false
                  sample_online_world).2
  /\ (refresh_all [sample_local_round] true sample_offline_world).1.1.1
     = NoDownloadsBreak.
Proof.
  split.
  - refine (proj2 (proj2 (refresh_all_downloads_used_feeds sample_ready_round
                            [] false sample_online_world)) _ _ _).
    + reflexivity.
    + apply elem_of_remote_feeds. split; [now left|reflexivity].
  - refine (proj1 (proj1 (proj2 (refresh_all_downloads_used_feeds
                                   sample_local_round [] true
                                   sample_offline_world)) _)).
    reflexivity.
Defined.

(** ** Staleness over time *)

(** X13. A feed that is stale stays stale as time passes, as long as the
    cache records nothing new about it: for the same policy, feed and
    record of check attempts, [is_stale] at a later time is true when it
    is true now. *)
Theorem is_stale_stays_stale (now now' : Z)
    (get_last_check_attempt : string -> option Z) (p : Policy)
    (feed : option ZeroInstallFeed) :
  now <= now' ->
  is_stale now get_last_check_attempt p feed = true ->
  is_stale now' get_last_check_attempt p feed = true.
Proof.
  intros Hle. destruct feed as [feed|]; [|reflexivity]. simpl.
  destruct (startswith (url feed) "/"); [discriminate|].
  destruct (last_modified feed); [|reflexivity].
  destruct (freshness p =? 0); [discriminate|]. simpl.
  destruct (now - or_zero (last_checked feed) <? freshness p) eqn:E1;
    [discriminate|].
  apply Z.ltb_ge in E1.
  assert (E2 : (now' - or_zero (last_checked feed) <? freshness p) = false)
    by (apply Z.ltb_ge; lia).
  rewrite E2.
  destruct (truthy_num (get_last_check_attempt (url feed))); [|reflexivity].
  simpl.
  destruct (now - FAILED_CHECK_DELAY
            <? or_zero (get_last_check_attempt (url feed))) eqn:E3;
    [discriminate|].
  apply Z.ltb_ge in E3. intros _.
  assert (E4 : (now' - FAILED_CHECK_DELAY
                <? or_zero (get_last_check_attempt (url feed))) = false)
    by (apply Z.ltb_ge; lia).
  now rewrite E4.
Qed.

(** Stale two hours after the check, and still stale a day later. *)
Lemma is_stale_stays_stale_witness :
  let p := set_freshness 3600 (sample_policy "http://example.com/prog.xml") in
  let f := {| url := "http://example.com/lib.xml";
              last_modified := Some 1000; last_checked := Some 2800 |} in
  is_stale 10000 (fun _ => None) p (Some f) = true
  /\ is_stale 96400 (fun _ => None) p (Some f) = true.
Proof.
  intros p f.
  assert (E : is_stale 10000 (fun _ => None) p (Some f) = true)
    by reflexivity.
  split; [exact E|].
  apply (is_stale_stays_stale 10000 96400 (fun _ => None) p (Some f));
    [lia|exact E].
Defined.

(** ** Construction, continued *)

(** X14. A [Policy] built without a warning has a network-use setting that
    is one of the three known levels: the assertion at the end of the
    [try] block is the last thing that can fail. *)
Theorem init_without_warning_valid_network_use (root_uri : string)
    (src_flag : bool) (path : option config_file) :
  levels (__init__ root_uri src_flag path).2 = [] ->
  network_use (solver (__init__ root_uri src_flag path).1) ∈ network_levels.
Proof.
  assert (Hfull : network_full ∈ network_levels).
  { unfold network_levels. rewrite !elem_of_cons. tauto. }
  destruct path as [config|]; [|intros _; exact Hfull].
  unfold __init__, load_config.
  destruct (config_read config) as [[]|ex0]; [|discriminate].
  destruct (config_getboolean_help_with_testing config) as [b|ex1];
    [|discriminate].
  destruct (config_get_network_use config) as [n|ex2]; [|discriminate].
  destruct (int_config_get_freshness config) as [f|ex3]; [|discriminate].
  simpl. destruct (bool_decide (n ∈ network_levels)) eqn:Hn; [|discriminate].
  intros _. now apply bool_decide_eq_true in Hn.
Qed.

(** ** Paths of implementations *)

Section PathProperties.
Variable stores_lookup : string -> result string.
Variable path_exists : string -> bool.

(** X15. For an implementation that is not a distribution package,
    [get_cached] answering [True] guarantees that
    [get_implementation_path] returns a non-empty path instead of raising
    [NotStored].  For an id that starts with ['/'],
    [get_implementation_path] returns the id itself without consulting the
    stores, whether or not the path exists. *)
Theorem get_cached_true_path_available (digest : string) :
  (startswith digest "/" = true ->
   get_implementation_path stores_lookup (ZeroInstallImplementation digest)
   = Return digest)
  /\ (get_cached stores_lookup path_exists (ZeroInstallImplementation digest)
      = Return true ->
      exists path,
        get_implementation_path stores_lookup
          (ZeroInstallImplementation digest) = Return path
        /\ path <> "").
Proof.
  unfold get_implementation_path. simpl. split.
  - intros ->. reflexivity.
  - destruct (startswith digest "/") eqn:Hl.
    + intros _. exists digest. split; [reflexivity|].
      intros ->. discriminate Hl.
    + unfold get_implementation_path. simpl. rewrite Hl.
      destruct (stores_lookup digest) as [path|ex]; simpl; [|discriminate].
      destruct (String.eqb path "") eqn:Ep; simpl; [discriminate|].
      intros _. exists path. split; [reflexivity|].
      now apply String.eqb_neq.
Qed.

End PathProperties.

Lemma get_cached_true_path_available_witness :
  exists path,
    get_implementation_path sample_stores_lookup
      (ZeroInstallImplementation
         "sha1=3ce644dc725f1d21cfcf02562c76f375944b266a") = Return path
    /\ path <> "".
Proof.
  apply (proj2 (get_cached_true_path_available sample_stores_lookup
                  sample_path_exists
                  "sha1=3ce644dc725f1d21cfcf02562c76f375944b266a")).
  reflexivity.
Defined.

(** An installed distribution package is cached, yet asking for its path
    consults the stores and may raise. *)
Example distribution_cached_without_path :
  get_cached sample_stores_lookup sample_path_exists
    (DistributionImplementation "package:deb:python:2.5" true) = Return true
  /\ get_implementation_path sample_stores_lookup
       (DistributionImplementation "package:deb:python:2.5" true)
     = Raise (NotStored "package:deb:python:2.5").
Proof. split; reflexivity. Qed.

(** ** Feed targets *)

Section FeedTargetsProperties.
Variable get_interface : string -> Interface.
Variable feed_for : string -> list string.

Local Abbreviation targets := (get_feed_targets get_interface feed_for).

(** X16. [get_feed_targets] never returns an empty list.  When the
    interface of the URI declares no feed target it raises a
    [SafeException] and logs nothing: "failed to load interface" when the
    interface has no name either, "Missing <feed-for> element" when it has
    one.  Otherwise it returns one interface per declared target, in
    order, and logs a warning exactly when the interface has no name. *)
Theorem get_feed_targets_outcomes (feed_iface_uri : string) :
  let r := targets feed_iface_uri in
  let named := truthy_str (name (get_interface feed_iface_uri)) in
  (forall l, r.1 = Return l ->
             l <> [] /\ l = map get_interface (feed_for feed_iface_uri))
  /\ (feed_for feed_iface_uri = [] ->
      r.2 = []
      /\ r.1 = Raise (SafeException
                 (if named
                  then "Missing <feed-for> element in '" +:+ feed_iface_uri
                       +:+ "'; this interface can't be used as a feed."
                  else "Can't get feed targets for '" +:+ feed_iface_uri
                       +:+ "'; failed to load interface.")))
  /\ (feed_for feed_iface_uri <> [] ->
      r.1 = Return (map get_interface (feed_for feed_iface_uri))
      /\ levels r.2 = (if named then [] else [WARN])).
Proof.
  cbv zeta. unfold get_feed_targets.
  destruct (feed_for feed_iface_uri) as [|t ts] eqn:Ef.
  - rewrite bool_decide_eq_false_2 by (intros H; now apply H). simpl.
    destruct (truthy_str (name (get_interface feed_iface_uri))); simpl.
    + split; [discriminate|]. split; [now split|]. intros H. now destruct H.
    + split; [discriminate|]. split; [now split|]. intros H. now destruct H.
  - rewrite bool_decide_eq_true_2 by discriminate. simpl.
    split; [|split; [discriminate|]].
    + intros l [= <-]. split; [discriminate|reflexivity].
    + intros _. split; [reflexivity|].
      now destruct (truthy_str (name (get_interface feed_iface_uri))).
Qed.

End FeedTargetsProperties.

Lemma init_without_warning_valid_network_use_witness :
  network_use (solver (__init__ "http://example.com/prog.xml" false
                         (Some sample_good_config)).1) ∈ network_levels.
Proof.
  apply init_without_warning_valid_network_use. reflexivity.
Defined.

(** ** Single-pass resolve, continued *)

Lemma levels_app es1 es2 : levels (es1 ++ es2) = levels es1 ++ levels es2.
Proof. apply omap_app. Qed.

Lemma count_level_app lvl es1 es2 :
  count_level lvl (es1 ++ es2)
  = (count_level lvl es1 + count_level lvl es2)%nat.
Proof.
  unfold count_level. now rewrite levels_app, List.filter_app, length_app.
Qed.

Lemma count_level_map_Notify lvl ws : count_level lvl (map Notify ws) = 0%nat.
Proof.
  unfold count_level.
  replace (levels (map Notify ws)) with (@nil level); [reflexivity|].
  induction ws; [reflexivity|assumption].
Qed.

(** One call of the gate: a warning uses up the one the flag allows, the
    flag is never cleared, and a handle is taken exactly when a download
    starts. *)
Lemma gate_budget f w :
  let r := download_and_import_feed_if_online f w in
  (count_level WARN r.2 + warnings_left (policy r.1.2)
   <= warnings_left (policy w))%nat
  /\ (offline (policy w) = false -> count_level WARN r.2 = 0%nat)
  /\ next_handle r.1.2 = (next_handle w + length (launched r.2))%nat.
Proof.
  cbv zeta. unfold warnings_left.
  destruct (offline (policy w)) eqn:Hoff.
  - destruct (_warned_offline (policy w)) eqn:Hw.
    + rewrite (gate_offline_warned f w Hoff Hw). simpl. rewrite Hw.
      conj_split; first [lia | discriminate].
    + destruct (decide (f = injector_gui_uri)) as [->|Hne].
      * rewrite (gate_offline_gui w Hoff Hw). simpl. rewrite Hw.
        conj_split; first [lia | discriminate].
      * rewrite (gate_offline_first f w Hoff Hw Hne). simpl.
        conj_split; first [lia | discriminate].
  - rewrite (gate_online f w Hoff). simpl.
    destruct (_warned_offline (policy w));
      conj_split; first [lia | reflexivity].
Qed.

Section RecalculateFurther.
Variable now : Z.
Variable get_feed : string -> option ZeroInstallFeed.
Variable get_last_check_attempt : string -> option Z.
Variable answer : solver_answer.

Local Abbreviation feed_step :=
  (recalculate_feed now get_feed get_last_check_attempt).
Local Abbreviation recalc :=
  (recalculate now get_feed get_last_check_attempt answer).
Local Abbreviation judged := (judged_stale now get_feed get_last_check_attempt).
Local Abbreviation wants := (wants_download now get_feed get_last_check_attempt).

(** [recalculate] in closed form: the solve, the loop over the feeds
    used, the watchers. *)
Lemma recalculate_run fetch w :
  recalc fetch w
  = let w1 := {| policy := set_solver (solved answer (solver (policy w)))
                             (set_stale_feeds ∅ (policy w));
                 next_handle := next_handle w |} in
    let loop := for_each (answer_feeds_used answer)
                  (feed_step (if offline (policy w) then false else fetch))
                  w1 in
    ([], loop.1.2,
     Solve (root (policy w)) (host_arch_of (policy w))
     :: loop.2 ++ map Notify (watchers (policy loop.1.2))).
Proof.
  unfold recalculate, solver_solve.
  unfold mbind, M_bind, mret, M_ret, get_policy, emit, modify_policy.
  cbv beta iota zeta.
  cbn [policy next_handle solver set_solver set_stale_feeds solved feeds_used
       root].
  change (offline {| root := root (policy w); watchers := watchers (policy w);
                     freshness := freshness (policy w); src := src (policy w);
                     stale_feeds := ∅;
                     solver := solved answer (solver (policy w));
                     _warned_offline := _warned_offline (policy w) |})
    with (offline (policy w)).
  destruct (for_each _ _ _) as [[[] w2] es2].
  rewrite notify_watchers_run. cbn. now rewrite ?app_nil_r.
Qed.

(** One turn of the loop over the feeds used. *)
Lemma recalculate_feed_budget fetch f w :
  let r := feed_step fetch f w in
  (count_level WARN r.2 + warnings_left (policy r.1.2)
   <= warnings_left (policy w))%nat
  /\ (offline (policy w) = false -> count_level WARN r.2 = 0%nat)
  /\ next_handle r.1.2 = (next_handle w + length (launched r.2))%nat.
Proof.
  cbv zeta. unfold recalculate_feed.
  destruct (startswith f "/"); [simpl; conj_split; trivial; lia|].
  destruct (never_fetched (get_feed f)).
  - unfold mbind, M_bind.
    destruct (gate_budget f w) as (Hb & Ho & Hh).
    destruct (download_and_import_feed_if_online f w) as [[r w'] es].
    cbn [fst snd] in *. unfold mret, M_ret. rewrite app_nil_r. tauto.
  - unfold mbind, M_bind, get_policy, emit, modify_policy, mret, M_ret.
    cbv beta iota.
    destruct (is_stale now get_last_check_attempt (policy w) (get_feed f));
      [|simpl; conj_split; trivial; lia].
    destruct fetch; [|simpl; conj_split; trivial; lia].
    destruct (gate_budget f
      {| policy := set_stale_feeds ({[f]} ∪ stale_feeds (policy w)) (policy w);
         next_handle := next_handle w |}) as (Hb & Ho & Hh).
    destruct (download_and_import_feed_if_online f _) as [[r w'] es].
    cbn [fst snd policy next_handle] in *. rewrite ?app_nil_r.
    change (count_level WARN (Log DEBUG "Adding %s to stale set" [f] :: es))
      with (count_level WARN es).
    change (launched (Log DEBUG "Adding %s to stale set" [f] :: es))
      with (launched es).
    conj_split; trivial.
Qed.

Lemma recalculate_loop_budget fetch fs : forall w,
  let r := for_each fs (feed_step fetch) w in
  (count_level WARN r.2 + warnings_left (policy r.1.2)
   <= warnings_left (policy w))%nat
  /\ (offline (policy w) = false -> count_level WARN r.2 = 0%nat)
  /\ next_handle r.1.2 = (next_handle w + length (launched r.2))%nat.
Proof.
  induction fs as [|f fs IH]; intros w; cbv zeta.
  - simpl. conj_split; trivial; lia.
  - cbn [for_each]. unfold mbind, M_bind.
    destruct (recalculate_feed_budget fetch f w) as (Hb1 & Ho1 & Hh1).
    destruct (recalculate_feed_effects now get_feed get_last_check_attempt
                fetch f w) as (Hs & _).
    destruct (feed_step fetch f w) as [[[] w1] es1]. cbn [fst snd] in *.
    specialize (IH w1). cbv zeta in IH. destruct IH as (Hb2 & Ho2 & Hh2).
    destruct (for_each fs (feed_step fetch) w1) as [[[] w2] es2].
    cbn [fst snd] in *.
    rewrite count_level_app, launched_app, length_app.
    rewrite (same_settings_offline _ _ Hs) in Ho2.
    conj_split.
    + lia.
    + intros Hoff. rewrite (Ho1 Hoff), (Ho2 Hoff). reflexivity.
    + lia.
Qed.

(** X17. A call of [recalculate] logs at most one warning, and none when
    the policy has warned before or when network use is not off-line; the
    warned flag is never cleared, and it is set whenever a warning is
    logged.  Every download the call starts takes one fresh handle. *)
Theorem recalculate_warns_at_most_once (fetch_stale_interfaces : bool)
    (w : world) :
  let r := recalc fetch_stale_interfaces w in
  (count_level WARN r.2 <= 1)%nat
  /\ (_warned_offline (policy w) = true ->
      count_level WARN r.2 = 0%nat
      /\ _warned_offline (policy r.1.2) = true)
  /\ (count_level WARN r.2 = 1%nat ->
      offline (policy w) = true /\ _warned_offline (policy r.1.2) = true)
  /\ (offline (policy w) = false -> count_level WARN r.2 = 0%nat)
  /\ next_handle r.1.2 = (next_handle w + length (launched r.2))%nat.
Proof.
  cbv zeta. rewrite recalculate_run. cbv zeta.
  set (w1 := {| policy := set_solver (solved answer (solver (policy w)))
                            (set_stale_feeds ∅ (policy w));
                next_handle := next_handle w |}).
  destruct (recalculate_loop_budget
              (if offline (policy w) then false else fetch_stale_interfaces)
              (answer_feeds_used answer) w1) as (Hb & Ho & Hh).
  destruct (for_each _ _ w1) as [[[] w2] es2]. cbn [fst snd] in *.
  change (offline (policy w1)) with (offline (policy w)) in Ho.
  change (warnings_left (policy w1)) with (warnings_left (policy w)) in Hb.
  change (next_handle w1) with (next_handle w) in Hh.
  change (count_level WARN
            (Solve (root (policy w)) (host_arch_of (policy w))
             :: es2 ++ map Notify (watchers (policy w2))))
    with (count_level WARN (es2 ++ map Notify (watchers (policy w2)))).
  change (launched
            (Solve (root (policy w)) (host_arch_of (policy w))
             :: es2 ++ map Notify (watchers (policy w2))))
    with (launched (es2 ++ map Notify (watchers (policy w2)))).
  rewrite count_level_app, count_level_map_Notify, launched_app,
    launched_map_Notify, app_nil_r, Nat.add_0_r.
  unfold warnings_left in Hb.
  assert (Hflags : (count_level WARN es2 <= 1)%nat
                   /\ (_warned_offline (policy w) = true ->
                       count_level WARN es2 = 0%nat
                       /\ _warned_offline (policy w2) = true)
                   /\ (count_level WARN es2 = 1%nat ->
                       _warned_offline (policy w2) = true)).
  { destruct (_warned_offline (policy w));
      destruct (_warned_offline (policy w2));
      conj_split; intros; try split; first [lia | reflexivity | discriminate]. }
  destruct Hflags as (H1 & H2 & H3).
  split; [exact H1|]. split; [exact H2|]. split; [|split; [exact Ho|exact Hh]].
  intros Hone. split; [|exact (H3 Hone)].
  destruct (offline (policy w)); [reflexivity|].
  rewrite (Ho eq_refl) in Hone. discriminate.
Qed.

(** X18. [recalculate] rebuilds the stale set from nothing: what the set
    held before the call has no influence on the result of the call, on
    the state it leaves or on the events it produces.  And the call
    assigns neither the root, nor the list of watchers, nor the freshness
    window, nor the src flag: they are after the call as they were
    before. *)
Theorem recalculate_keeps_settings (fetch_stale_interfaces : bool)
    (w : world) :
  let p := policy w in
  let p' := policy (recalc fetch_stale_interfaces w).1.2 in
  (forall stale_before : gset string,
     recalc fetch_stale_interfaces
       {| policy := set_stale_feeds stale_before (policy w);
          next_handle := next_handle w |}
     = recalc fetch_stale_interfaces w)
  /\ root p' = root p /\ watchers p' = watchers p
  /\ freshness p' = freshness p /\ src p' = src p.
Proof.
  cbv zeta. split.
  { intros stale_before. rewrite !recalculate_run. reflexivity. }
  rewrite recalculate_run. cbv zeta. cbn [fst snd].
  match goal with
  | |- context [for_each ?fs (feed_step ?fe) ?w1] =>
      destruct (recalculate_loop_effects now get_feed get_last_check_attempt
                  fe fs w1) as ((Hr & Hwa & Hf & Hsr & Hso) & _)
  end.
  cbn [policy] in *. rewrite Hr, Hwa, Hf, Hsr. now conj_split.
Qed.

(** X19. [recalculate] records in the stale set only feeds that are
    present but stale: remote feeds the solver used, that the cache holds
    with a last-modified timestamp, and that [is_stale] judges stale.  It
    starts downloads only for remote feeds the solver used, and only when
    network use is not off-line; with [fetch_stale_interfaces] true every
    feed it records as stale is then downloaded as well, and with
    [fetch_stale_interfaces] false only feeds never fetched are. *)
Theorem recalculate_stale_and_downloads (fetch_stale_interfaces : bool)
    (w : world) :
  let r := recalc fetch_stale_interfaces w in
  (forall f, f ∈ stale_feeds (policy r.1.2) ->
     f ∈ answer_feeds_used answer /\ startswith f "/" = false
     /\ (exists feed m, get_feed f = Some feed /\ last_modified feed = Some m)
     /\ is_stale now get_last_check_attempt (policy w) (get_feed f) = true)
  /\ (forall f, f ∈ launched r.2 ->
      f ∈ answer_feeds_used answer /\ startswith f "/" = false
      /\ offline (policy w) = false)
  /\ (fetch_stale_interfaces = true -> offline (policy w) = false ->
      forall f, f ∈ stale_feeds (policy r.1.2) -> f ∈ launched r.2)
  /\ (fetch_stale_interfaces = false ->
      forall f, f ∈ launched r.2 -> never_fetched (get_feed f) = true).
Proof.
  cbv zeta. rewrite recalculate_run. cbv zeta. cbn [fst snd].
  set (w1 := {| policy := set_solver (solved answer (solver (policy w)))
                            (set_stale_feeds ∅ (policy w));
                next_handle := next_handle w |}).
  set (fetch := if offline (policy w) then false else fetch_stale_interfaces).
  destruct (recalculate_loop_effects now get_feed get_last_check_attempt
              fetch (answer_feeds_used answer) w1)
    as (_ & Hst & _ & _ & _ & Hl).
  destruct (for_each _ _ w1) as [[[] w2] es2]. cbn [fst snd] in *.
  change (launched (Solve (root (policy w)) (host_arch_of (policy w))
                    :: es2 ++ map Notify (watchers (policy w2))))
    with (launched (es2 ++ map Notify (watchers (policy w2)))).
  rewrite launched_app, launched_map_Notify, app_nil_r, Hl, Hst.
  change (offline (policy w1)) with (offline (policy w)).
  change (stale_feeds (policy w1)) with (∅ : gset string).
  rewrite union_empty_r_L.
  assert (Hj : forall f, judged (policy w1) f = judged (policy w) f)
    by reflexivity.
  assert (Hw : forall f, wants fetch (policy w1) f = wants fetch (policy w) f)
    by reflexivity.
  assert (Hstale : forall f,
    f ∈ (list_to_set (List.filter (judged (policy w1))
                        (answer_feeds_used answer)) : gset string)
    <-> f ∈ answer_feeds_used answer /\ judged (policy w) f = true).
  { intros f. rewrite elem_of_list_to_set, list_elem_of_In, List.filter_In,
      <- list_elem_of_In, Hj. reflexivity. }
  assert (Hlaunch : forall f,
    f ∈ List.filter (wants fetch (policy w1)) (answer_feeds_used answer)
    <-> f ∈ answer_feeds_used answer /\ wants fetch (policy w) f = true).
  { intros f. rewrite list_elem_of_In, List.filter_In, <- list_elem_of_In, Hw.
    reflexivity. }
  conj_split.
  - intros f Hf. apply Hstale in Hf as [Hin Hjud].
    unfold judged_stale in Hjud.
    apply andb_true_iff in Hjud as [Hjud Hs].
    apply andb_true_iff in Hjud as [Hloc Hnf].
    apply negb_true_iff in Hloc, Hnf.
    split; [exact Hin|]. split; [exact Hloc|]. split; [|exact Hs].
    unfold never_fetched in Hnf.
    destruct (get_feed f) as [feed|]; [|discriminate].
    destruct (last_modified feed) as [m|] eqn:Em; [|discriminate]. eauto.
  - intros f Hf. destruct (offline (policy w)); [inversion Hf|].
    apply Hlaunch in Hf as [Hin Hwant]. unfold wants_download in Hwant.
    apply andb_true_iff in Hwant as [Hloc _]. apply negb_true_iff in Hloc.
    now conj_split.
  - intros -> Hoff f Hf. subst fetch. rewrite Hoff in *.
    apply Hstale in Hf as [Hin Hjud]. apply Hlaunch. split; [exact Hin|].
    unfold judged_stale in Hjud. unfold wants_download.
    apply andb_true_iff in Hjud as [Hjud Hs].
    apply andb_true_iff in Hjud as [Hloc Hnf].
    rewrite Hloc, Hs. simpl. now rewrite orb_true_r.
  - intros -> f Hf. destruct (offline (policy w)); [inversion Hf|].
    apply Hlaunch in Hf as [Hin Hwant]. subst fetch.
    unfold wants_download in Hwant.
    apply andb_true_iff in Hwant as [_ Hwant].
    rewrite andb_false_r, orb_false_r in Hwant. exact Hwant.
Qed.

End RecalculateFurther.

(** ** Architecture ranking, continued *)

(** X20. The src flag matters for the root interface only: for any other
    interface, two policies with the same root yield the same usable
    feeds, whatever their src flags. *)
Theorem usable_feeds_src_only_at_root
    (os_ranks machine_ranks : gmap (option string) nat)
    (p p' : Policy) (iface : Interface) :
  uri iface <> root p -> root p' = root p ->
  usable_feeds os_ranks machine_ranks p' iface
  = usable_feeds os_ranks machine_ranks p iface.
Proof.
  intros Hne Hr. unfold usable_feeds. rewrite Hr.
  apply String.eqb_neq in Hne. rewrite Hne, !andb_false_r. reflexivity.
Qed.

Lemma usable_feeds_src_only_at_root_witness :
  usable_feeds sample_os_ranks sample_machine_ranks
    (sample_src_policy "http://example.com/other.xml") sample_interface
  = usable_feeds sample_os_ranks sample_machine_ranks
      (sample_policy "http://example.com/other.xml") sample_interface.
Proof.
  apply usable_feeds_src_only_at_root; [discriminate|reflexivity].
Defined.

(** ** Handles *)

Lemma started_downloads_app es1 es2 :
  started_downloads (es1 ++ es2)
  = started_downloads es1 ++ started_downloads es2.
Proof. apply omap_app. Qed.

Lemma launch_feed_handles es d f w :
  handles_invariant es d ->
  handles_invariant (es ++ (launch_feed d f w).2) (launch_feed d f w).1.1.
Proof.
  intros Hin. rewrite launch_feed_run.
  destruct (_ || _ || _); [cbn [fst snd]; now rewrite app_nil_r|].
  unfold handles_invariant.
  cbn [fst snd downloads_in_progress].
  intros f' h. rewrite started_downloads_app, elem_of_app.
  destruct (decide (f = f')) as [<-|Hne].
  - rewrite lookup_insert_eq. intros [= <-]. right. now left.
  - rewrite lookup_insert_ne by exact Hne. intros Hl.
    left. exact (Hin f' h Hl).
Qed.

Lemma launch_feeds_handles fs : forall es d w,
  handles_invariant es d ->
  handles_invariant (es ++ (launch_feeds d fs w).2) (launch_feeds d fs w).1.1.
Proof.
  induction fs as [|f fs IH]; intros es d w Hinv.
  - simpl. now rewrite app_nil_r.
  - cbn [launch_feeds]. unfold mbind, M_bind.
    pose proof (launch_feed_handles es d f w Hinv) as H1.
    destruct (launch_feed d f w) as [[d1 w1] es1]. cbn [fst snd] in H1.
    specialize (IH _ d1 w1 H1).
    destruct (launch_feeds d1 fs w1) as [[d2 w2] es2]. cbn [fst snd] in *.
    now rewrite app_assoc.
Qed.

Lemma reap_handles happened_ es d :
  handles_invariant es d ->
  handles_invariant es (reap happened_ d).
Proof.
  intros Hin f h Hl. apply Hin. revert Hl. unfold reap.
  rewrite (proj1 (reap_keys_lookup happened_
                    (map_to_list (downloads_in_progress d)).*1 d f)).
  destruct (bool_decide _); [|exact id].
  destruct (downloads_in_progress d !! f) as [h'|]; [|discriminate].
  destruct (happened_ h'); [discriminate|exact id].
Qed.

Lemma handles_invariant_later es es' d :
  handles_invariant es d -> handles_invariant (es ++ es') d.
Proof.
  intros Hin f h Hl. rewrite started_downloads_app, elem_of_app.
  left. exact (Hin f h Hl).
Qed.

(** The blockers of a suspension, under the invariant. *)
Lemma blockers_started es d :
  handles_invariant es d ->
  forall h, h ∈ (map_to_list (downloads_in_progress d)).*2 ->
            exists f, (f, h) ∈ started_downloads es.
Proof.
  intros Hin h Hh. apply list_elem_of_fmap in Hh as ([f h'] & -> & Hl).
  apply elem_of_map_to_list in Hl. exists f. apply (Hin f h' Hl).
Qed.

(** Every suspension of the loop is on handles of downloads started
    earlier, in the trace [es] that leads to the loop or in the part of the
    loop's own trace that precedes the suspension. *)
Lemma solve_loop_blockers host_arch rounds : forall force d w es,
  handles_invariant es d ->
  forall pre blockers post,
    (solve_loop host_arch rounds force d w).2
    = pre ++ Yield blockers :: post ->
    forall h, h ∈ blockers ->
              exists f, (f, h) ∈ started_downloads (es ++ pre).
Proof.
  induction rounds as [|r rounds IH];
    intros force d w es Hinv pre blockers post.
  - simpl. intros E. now destruct pre.
  - rewrite solve_loop_step. cbv zeta.
    change (Solve (root (policy w)) host_arch
            :: map Notify (watchers (policy w)))
      with (turn_start (root (policy w)) host_arch (watchers (policy w))).
    set (es0 := turn_start (root (policy w)) host_arch (watchers (policy w))).
    assert (Hturn : forall ds, forallb is_download ds = true ->
              Forall (fun e => ~ exists bs, e = Yield bs) (es0 ++ ds))
      by (intros ds; apply turn_no_yield).
    clearbody es0.
    destruct (answer_ready (round_answer r) && negb force).
    { cbn [fst snd]. intros E. exfalso.
      rewrite <- (app_nil_r es0), <- (app_nil_r (es0 ++ [])) in E.
      apply (app_eq_past (fun e => exists bs, e = Yield bs)) in E;
        [|now apply Hturn|now eexists].
      destruct E as (pre' & _ & E). now destruct pre'. }
    set (launch := if negb (offline (policy w)) then _ else _).
    assert (Hl : handles_invariant (es ++ es0 ++ launch.2) launch.1.1
                 /\ forallb is_download launch.2 = true).
    { assert (Hinv0 : handles_invariant (es ++ es0) d)
        by now apply handles_invariant_later.
      subst launch. destruct (negb (offline (policy w))).
      - split; [|apply launch_feeds_only_downloads].
        rewrite app_assoc. now apply launch_feeds_handles.
      - cbn [fst snd]. rewrite app_nil_r. now split. }
    clearbody launch. destruct launch as [[d1 w2] es1]. cbn [fst snd] in Hl.
    destruct Hl as [Hinv1 Hd1].
    pose proof (blockers_started _ _ Hinv1) as Hstarted.
    set (bs := (map_to_list (downloads_in_progress d1)).*2) in *.
    clearbody bs.
    destruct (bool_decide (downloads_in_progress d1 = ∅)).
    { cbn [fst snd]. intros E. exfalso.
      rewrite <- (app_nil_r (es0 ++ es1)) in E.
      apply (app_eq_past (fun e => exists bs, e = Yield bs)) in E;
        [|now apply Hturn|now eexists].
      destruct E as (pre' & _ & E). now destruct pre'. }
    destruct (check_raises r).
    { cbn [fst snd]. rewrite app_assoc. intros E.
      apply (app_eq_past (fun e => exists bs, e = Yield bs)) in E;
        [|now apply Hturn|now eexists].
      destruct E as (pre' & -> & E).
      destruct pre' as [|e pre'].
      - injection E as <- _. rewrite app_nil_r. exact Hstarted.
      - injection E as _ E. now destruct pre'. }
    specialize (IH true (reap (happened r) d1) w2
                  (es ++ es0 ++ es1 ++ [Yield bs])).
    destruct (solve_loop host_arch rounds true (reap (happened r) d1) w2)
      as [[res w3] es2].
    cbn [fst snd] in *. rewrite app_assoc. intros E.
    apply (app_eq_past (fun e => exists bs, e = Yield bs)) in E;
      [|now apply Hturn|now eexists].
    destruct E as (pre' & -> & E).
    destruct pre' as [|e pre'].
    + injection E as <- _. rewrite app_nil_r. exact Hstarted.
    + injection E as <- E. intros h Hh.
      assert (Hinv2 : handles_invariant (es ++ es0 ++ es1 ++ [Yield bs])
                        (reap (happened r) d1)).
      { apply reap_handles.
        replace (es ++ es0 ++ es1 ++ [Yield bs])
          with ((es ++ es0 ++ es1) ++ [Yield bs])
          by now rewrite <- !app_assoc.
        now apply handles_invariant_later. }
      destruct (IH Hinv2 pre' blockers post E h Hh) as [f Hf].
      exists f.
      replace (es ++ (es0 ++ es1) ++ Yield bs :: pre')
        with ((es ++ es0 ++ es1 ++ [Yield bs]) ++ pre');
        [exact Hf|].
      rewrite <- !app_assoc. reflexivity.
Qed.

(** X21. Whenever [solve_with_downloads] suspends, every blocker it yields
    is the handle the fetcher gave for a download that this execution
    started before the suspension. *)
Theorem solve_with_downloads_waits_on_own_downloads (rounds : list round)
    (force : bool) (w : world) (pre post : list event)
    (blockers : list handle) :
  (solve_with_downloads rounds force w).2 = pre ++ Yield blockers :: post ->
  forall h, h ∈ blockers -> exists f, (f, h) ∈ started_downloads pre.
Proof.
  unfold solve_with_downloads, mbind, M_bind, get_policy. cbv beta iota.
  assert (H0 : handles_invariant [] no_downloads).
  { intros f h. simpl. now rewrite lookup_empty. }
  pose proof (solve_loop_blockers (host_arch_of (policy w)) rounds force
                no_downloads w [] H0 pre blockers post) as H.
  unfold no_downloads in H.
  destruct (solve_loop _ _ _ _ _) as [[res w'] es].
  cbn [fst snd app] in *. exact H.
Qed.

(** On the sample rounds the second suspension still waits on the
    download of the second feed, which the first turn started. *)
Lemma solve_with_downloads_waits_on_own_downloads_witness :
  exists f,
    (f, 1%nat)
      ∈ started_downloads
          [Solve "http://example.com/prog.xml" HostArchitecture;
           Notify 1%nat; Notify 2%nat;
           Download "http://example.com/a.xml" 0%nat;
           Download "http://example.com/b.xml" 1%nat;
           Yield [0%nat; 1%nat];
           Solve "http://example.com/prog.xml" HostArchitecture;
           Notify 1%nat; Notify 2%nat;
           Download "http://example.com/c.xml" 2%nat].
Proof.
  refine (solve_with_downloads_waits_on_own_downloads sample_rounds false
            sample_online_world _ _ [2%nat; 1%nat] _ 1%nat _).
  - vm_compute. reflexivity.
  - right. left.
Defined.
